(** * Limit-up screening ([find_daily_limit_up.py]): a shallow embedding

    The program reads a panel of daily bars into a pandas [DataFrame],
    computes for every bar the regulatory limit price from the previous
    close of the same instrument, and reports the bars that reached it.

    Modelling choices.
    - Prices are IEEE binary64 numbers ([PrimFloat.float]); the missing
      value of a float64 column is NaN, so "absent" is [is_nan].  The cells
      of a row handed to a function by [apply(axis=1)] are Python floats, so
      [round] is Python's builtin.
    - A [DataFrame] is a set of named columns stored by dtype, as in pandas'
      block manager: an object block (str), a datetime64 block and a float64
      block.  The column labels the program uses are enumerated per dtype,
      so a frame may lack any column, but a column never has another dtype
      than the one the program expects; row labels (the index) play no part
      in the program and are left out.
    - Instrument codes are strings of characters with code points below 256.
    - Frames are objects: they live in a store and are passed by reference;
      [df[col] = ...] updates the referenced frame in place, every other
      operation used here allocates a new frame. *)

From Stdlib Require Import ZArith Floats List String Ascii Bool Lia.
From Stdlib Require Import Permutation Sorted.
Import ListNotations.

Set Implicit Arguments.
Local Open Scope string_scope.
Local Open Scope list_scope.
Set Warnings "-inexact-float".

(* ------------------------------------------------------------------ *)
(** * Python values the program computes with *)

(** Exceptions a run can end with.  [KeyError] carries the missing labels. *)
Inductive exn :=
| KeyError (missing : list string)
| InvalidRef.

Inductive result (A : Type) :=
| Ok (a : A)
| Raise (e : exn).
Arguments Ok {A} a.
Arguments Raise {A} e.

Definition rbind {A B} (r : result A) (k : A -> result B) : result B :=
  match r with
  | Ok a => k a
  | Raise e => Raise e
  end.

Fixpoint mapM {A B} (f : A -> result B) (l : list A) : result (list B) :=
  match l with
  | [] => Ok []
  | x :: l' =>
      rbind (f x) (fun y => rbind (mapM f l') (fun ys => Ok (y :: ys)))
  end.

(** ** Floats *)

(** [pd.isna] on a float. *)
Definition isna (x : float) : bool := PrimFloat.is_nan x.

(** Python's [a >= b] on floats (false as soon as one side is NaN). *)
Definition ge (a b : float) : bool := PrimFloat.leb b a.

(** Nearest integer to [num / den] ([den > 0]), ties to the even one. *)
Definition round_half_even (num den : Z) : Z :=
  let q := (num / den)%Z in
  let r := (num mod den)%Z in
  match (2 * r ?= den)%Z with
  | Lt => q
  | Gt => (q + 1)%Z
  | Eq => if Z.even q then q else (q + 1)%Z
  end.

(** [|x| = m * 2^e]; the integer nearest to [|x| * 10^ndigits]. *)
Definition scaled_nearest (m : positive) (e : Z) (ndigits : nat) : Z :=
  let p := (10 ^ Z.of_nat ndigits)%Z in
  match e with
  | Zneg k => round_half_even (Zpos m * p) (2 ^ Zpos k)
  | _ => (Zpos m * 2 ^ e * p)%Z
  end.

(** The binary64 number nearest to [n / 10^ndigits], with sign [s]. *)
Definition decimal_to_float (s : bool) (n : Z) (ndigits : nat) : float :=
  match n with
  | Zpos k =>
      SF2Prim (SFdiv prec emax (S754_finite s k 0)
                 (S754_finite false (Z.to_pos (10 ^ Z.of_nat ndigits)) 0))
  | _ => SF2Prim (S754_zero s)
  end.

(** Python's builtin [round(x, ndigits)] on a float, [ndigits >= 0]: the
    exact value of [x] is rounded to [ndigits] decimals, half to even, and
    the decimal is converted back to the nearest float.  NaN and the
    infinities round to themselves. *)
Definition round (x : float) (ndigits : nat) : float :=
  match Prim2SF x with
  | S754_finite s m e => decimal_to_float s (scaled_nearest m e ndigits) ndigits
  | _ => x
  end.

(** ** Strings *)

(** [s.startswith((p1, p2, ...))]. *)
Definition startswith (s : string) (prefixes : list string) : bool :=
  existsb (fun p => prefix p s) prefixes.

(** The case folding of [re.IGNORECASE], for the characters of the codes
    (code points below 256): the letters A to Z fold onto a to z.  The
    letters of the pattern of line 50, S and T, have no other case variant
    among these characters. *)
Definition lower (c : ascii) : ascii :=
  let n := nat_of_ascii c in
  if (65 <=? n)%nat && (n <=? 90)%nat then ascii_of_nat (n + 32) else c.

Definition char_match (case : bool) (p c : ascii) : bool :=
  if case then Ascii.eqb p c else Ascii.eqb (lower p) (lower c).

(** Does [pat] match at the start of [s]? *)
Fixpoint match_here (case : bool) (pat s : string) : bool :=
  match pat, s with
  | EmptyString, _ => true
  | String p pat', String c s' => char_match case p c && match_here case pat' s'
  | String _ _, EmptyString => false
  end.

(** [re.search] of a pattern without metacharacters: [pat] occurs in [s],
    letters compared up to case under [re.IGNORECASE] when [case] is off. *)
Fixpoint search (case : bool) (pat s : string) : bool :=
  match_here case pat s ||
  match s with
  | EmptyString => false
  | String _ s' => search case pat s'
  end.

(* ------------------------------------------------------------------ *)
(** * DataFrames *)

Inductive object_column := ts_code | limit_type.
Inductive datetime_column := trade_date.
Inductive float_column :=
| open | close | high | low | prev_close | limit_price | zhangtingjia.

Class Label (L : Type) := {
  label_eqb : L -> L -> bool;
  label_name : L -> string
}.

#[export] Instance object_label : Label object_column := {|
  label_eqb a b :=
    match a, b with
    | ts_code, ts_code | limit_type, limit_type => true
    | _, _ => false
    end;
  label_name a :=
    match a with ts_code => "ts_code" | limit_type => "limit_type" end
|}.

#[export] Instance datetime_label : Label datetime_column := {|
  label_eqb _ _ := true;
  label_name _ := "trade_date"
|}.

#[export] Instance float_label : Label float_column := {|
  label_eqb a b :=
    match a, b with
    | open, open | close, close | high, high | low, low
    | prev_close, prev_close | limit_price, limit_price
    | zhangtingjia, zhangtingjia => true
    | _, _ => false
    end;
  label_name a :=
    match a with
    | open => "open" | close => "close" | high => "high" | low => "low"
    | prev_close => "prev_close" | limit_price => "limit_price"
    | zhangtingjia => "涨停价"
    end
|}.

Section Block.
Context {L A : Type} `{Label L}.

(** The columns of one dtype, in insertion order. *)
Definition block := list (L * list A).

Fixpoint block_get (b : block) (l : L) : option (list A) :=
  match b with
  | [] => None
  | (l', col) :: b' => if label_eqb l' l then Some col else block_get b' l
  end.

(** Assignment replaces an existing column where it stands and appends a
    new one. *)
Fixpoint block_set (b : block) (l : L) (col : list A) : block :=
  match b with
  | [] => [(l, col)]
  | (l', c) :: b' =>
      if label_eqb l' l then (l, col) :: b' else (l', c) :: block_set b' l col
  end.

Definition block_map (f : list A -> list A) (b : block) : block :=
  map (fun lc => (fst lc, f (snd lc))) b.

(** The [n] rows of a block, each a list of labelled cells. *)
Fixpoint block_rows (n : nat) (b : block) : list (list (L * A)) :=
  match b with
  | [] => repeat [] n
  | (l, col) :: b' =>
      map (fun vr => (l, fst vr) :: snd vr) (combine col (block_rows n b'))
  end.

Fixpoint cell (r : list (L * A)) (l : L) : option A :=
  match r with
  | [] => None
  | (l', v) :: r' => if label_eqb l' l then Some v else cell r' l
  end.

Definition block_labels (b : block) : list string :=
  map (fun lc => label_name (fst lc)) b.

Definition block_missing (b : block) (ls : list L) : list string :=
  map label_name
    (filter (fun l => match block_get b l with Some _ => false | None => true end) ls).

Definition block_select (b : block) (ls : list L) : block :=
  flat_map (fun l => match block_get b l with
                     | Some col => [(l, col)]
                     | None => []
                     end) ls.
End Block.
Arguments block : clear implicits.

Record DataFrame := {
  object_block : block object_column string;
  datetime_block : block datetime_column Z;
  float_block : block float_column float
}.

(** The labels of [df.columns], listed block by block. *)
Definition columns (df : DataFrame) : list string :=
  block_labels (object_block df) ++ block_labels (datetime_block df)
  ++ block_labels (float_block df).

(** [len(df)] *)
Definition len (df : DataFrame) : nat :=
  match object_block df, datetime_block df, float_block df with
  | (_, c) :: _, _, _ => List.length c
  | [], (_, c) :: _, _ => List.length c
  | [], [], (_, c) :: _ => List.length c
  | [], [], [] => 0%nat
  end.

Definition getitem {L A} `{Label L} (b : block L A) (l : L) : result (list A) :=
  match block_get b l with
  | Some col => Ok col
  | None => Raise (KeyError [label_name l])
  end.

(** The same rows of every column: [f] is a selection or a permutation of
    positions. *)
Definition reindex (f : forall A : Type, list A -> list A) (df : DataFrame)
  : DataFrame :=
  {| object_block := block_map (f string) (object_block df);
     datetime_block := block_map (f Z) (datetime_block df);
     float_block := block_map (f float) (float_block df) |}.

(** Rows kept by a boolean mask, [df[mask]]. *)
Fixpoint mask_rows (mask : list bool) (A : Type) (col : list A) : list A :=
  match mask, col with
  | m :: mask', x :: col' =>
      if m then x :: mask_rows mask' col' else mask_rows mask' col'
  | _, _ => []
  end.

(** Rows at the given positions, [take]. *)
Definition take (idx : list nat) (A : Type) (col : list A) : list A :=
  flat_map (fun i => match nth_error col i with
                     | Some x => [x]
                     | None => []
                     end) idx.

(** ** Sorting by [['ts_code', 'trade_date']] *)

Section Sort.
Variable T : Type.
Variable le : T -> T -> bool.

(** Stable insertion: [x] stood before every element of [l] and goes
    before the elements it is not greater than. *)
Fixpoint insert (x : T) (l : list T) : list T :=
  match l with
  | [] => [x]
  | y :: l' => if le x y then x :: l else y :: insert x l'
  end.

Definition isort (l : list T) : list T := fold_right insert [] l.
End Sort.

(** Lexicographic order on the two sort keys: strings by code point, then
    dates. *)
Definition key_le (a b : string * Z) : bool :=
  match String.compare (fst a) (fst b) with
  | Lt => true
  | Eq => (snd a <=? snd b)%Z
  | Gt => false
  end.

(** The positions of the rows in sorted order; rows with equal keys keep
    their order (the sort on several keys is a stable lexsort). *)
Definition argsort (keys : list (string * Z)) : list nat :=
  map fst
    (isort (fun a b => key_le (snd a) (snd b))
       (combine (seq 0 (List.length keys)) keys)).

(** ** [groupby(key)[col].shift(1)] *)

Fixpoint last_seen (seen : list (string * float)) (k : string) : float :=
  match seen with
  | [] => PrimFloat.nan
  | (k', v) :: seen' => if String.eqb k' k then v else last_seen seen' k
  end.

(** Each row takes the value of the previous row of its group, NaN when it
    is the first of the group.  [seen] holds the rows passed so far, latest
    first. *)
Fixpoint shift_in_groups (seen : list (string * float))
    (keys : list string) (vals : list float) : list float :=
  match keys, vals with
  | k :: keys', v :: vals' =>
      last_seen seen k :: shift_in_groups ((k, v) :: seen) keys' vals'
  | _, _ => []
  end.

(** ** Rows, for [apply(func, axis=1)] *)

Record Row := {
  row_object : list (object_column * string);
  row_datetime : list (datetime_column * Z);
  row_float : list (float_column * float)
}.

Fixpoint zip_rows (os : list (list (object_column * string)))
    (ds : list (list (datetime_column * Z)))
    (fs : list (list (float_column * float))) : list Row :=
  match os, ds, fs with
  | o :: os', d :: ds', f :: fs' =>
      {| row_object := o; row_datetime := d; row_float := f |} :: zip_rows os' ds' fs'
  | _, _, _ => []
  end.

Definition iterrows (df : DataFrame) : list Row :=
  let n := len df in
  zip_rows (block_rows n (object_block df)) (block_rows n (datetime_block df))
    (block_rows n (float_block df)).

(** [row[label]] *)
Definition row_get {L A} `{Label L} (r : list (L * A)) (l : L) : result A :=
  match cell r l with
  | Some v => Ok v
  | None => Raise (KeyError [label_name l])
  end.

Definition apply_axis1 {B} (func : Row -> result B) (df : DataFrame) : result (list B) :=
  mapM func (iterrows df).

(** ** Series operations *)

(** [col.str.contains(pat, case=case)] *)
Definition str_contains (pat : string) (case : bool) (col : list string) : list bool :=
  map (search case pat) col.

(** [~mask] *)
Definition invert (mask : list bool) : list bool := map negb mask.

(** [a >= b], element by element *)
Definition series_ge (a b : list float) : list bool :=
  map (fun xy => ge (fst xy) (snd xy)) (combine a b).

(** [a | b], element by element *)
Definition series_or (a b : list bool) : list bool :=
  map (fun xy => orb (fst xy) (snd xy)) (combine a b).

(** [col == value] on a datetime column *)
Definition series_eq (col : list Z) (value : Z) : list bool :=
  map (fun t => Z.eqb t value) col.

(* ------------------------------------------------------------------ *)
(** * The store of frames and the output of a run *)

Inductive output :=
| Print (text : string) (values : list Z)
| ToCsv (path : string) (table : DataFrame)
| ToCsvCounts (path : string) (table : list (Z * nat * nat * nat)).

Record state := {
  heap : list DataFrame;
  stdout : list output
}.

Definition ref := nat.

(** A computation reads and updates the state and returns or raises; an
    exception keeps the updates made before it. *)
Definition M (A : Type) := state -> result A * state.

Definition ret {A} (a : A) : M A := fun s => (Ok a, s).

Definition bind {A B} (m : M A) (k : A -> M B) : M B :=
  fun s =>
    match m s with
    | (Ok a, s') => k a s'
    | (Raise e, s') => (Raise e, s')
    end.

Definition lift {A} (r : result A) : M A := fun s => (r, s).

Notation "x <- m ;; k" := (bind m (fun x => k))
  (at level 61, m at next level, right associativity).
Notation "x <~ r ;; k" := (rbind r (fun x => k))
  (at level 61, r at next level, right associativity).

Fixpoint store (r : ref) (df : DataFrame) (h : list DataFrame) : list DataFrame :=
  match h, r with
  | [], _ => []
  | _ :: h', O => df :: h'
  | d :: h', S r' => d :: store r' df h'
  end.

Definition new (df : DataFrame) : M ref :=
  fun s => (Ok (List.length (heap s)),
            {| heap := heap s ++ [df]; stdout := stdout s |}).

Definition deref (r : ref) : M DataFrame :=
  fun s => (match nth_error (heap s) r with
            | Some df => Ok df
            | None => Raise InvalidRef
            end, s).

Definition assign (r : ref) (df : DataFrame) : M unit :=
  fun s => (Ok tt, {| heap := store r df (heap s); stdout := stdout s |}).

Definition emit (o : output) : M unit :=
  fun s => (Ok tt, {| heap := heap s; stdout := stdout s ++ [o] |}).

(** ** DataFrame methods, on references *)

(** [df[label]] *)
Definition getitem_object (r : ref) (l : object_column) : M (list string) :=
  df <- deref r ;; lift (getitem (object_block df) l).

Definition getitem_datetime (r : ref) (l : datetime_column) : M (list Z) :=
  df <- deref r ;; lift (getitem (datetime_block df) l).

Definition getitem_float (r : ref) (l : float_column) : M (list float) :=
  df <- deref r ;; lift (getitem (float_block df) l).

(** [df[label] = col]: in place.  The series assigned here are computed
    from the frame they go to, so they have its index and its length. *)
Definition setitem_object (r : ref) (l : object_column) (col : list string) : M unit :=
  df <- deref r ;;
  assign r {| object_block := block_set (object_block df) l col;
              datetime_block := datetime_block df;
              float_block := float_block df |}.

Definition setitem_float (r : ref) (l : float_column) (col : list float) : M unit :=
  df <- deref r ;;
  assign r {| object_block := object_block df;
              datetime_block := datetime_block df;
              float_block := block_set (float_block df) l col |}.

(** [df[mask]]: a new frame *)
Definition getitem_mask (r : ref) (mask : list bool) : M ref :=
  df <- deref r ;; new (reindex (mask_rows mask) df).

(** [df.copy()] *)
Definition copy (r : ref) : M ref :=
  df <- deref r ;; new df.

(** [df.sort_values([k1, k2])]: a new frame *)
Definition sort_values (r : ref) (k1 : object_column) (k2 : datetime_column) : M ref :=
  df <- deref r ;;
  a <- lift (getitem (object_block df) k1) ;;
  b <- lift (getitem (datetime_block df) k2) ;;
  new (reindex (take (argsort (combine a b))) df).

(** [df.groupby(key)[col].shift(1)] *)
Definition groupby_shift (r : ref) (key : object_column) (col : float_column)
  : M (list float) :=
  df <- deref r ;;
  k <- lift (getitem (object_block df) key) ;;
  v <- lift (getitem (float_block df) col) ;;
  ret (shift_in_groups [] k v).

(** [df.apply(func, axis=1)] *)
Definition apply {B} (r : ref) (func : Row -> result B) : M (list B) :=
  df <- deref r ;; lift (apply_axis1 func df).

Inductive column :=
| Obj (l : object_column)
| Dt (l : datetime_column)
| Num (l : float_column).

Definition column_name (c : column) : string :=
  match c with
  | Obj l => label_name l
  | Dt l => label_name l
  | Num l => label_name l
  end.

Definition column_missing (df : DataFrame) (c : column) : list string :=
  match c with
  | Obj l => block_missing (object_block df) [l]
  | Dt l => block_missing (datetime_block df) [l]
  | Num l => block_missing (float_block df) [l]
  end.

Definition objects_of (cols : list column) : list object_column :=
  flat_map (fun c => match c with Obj l => [l] | _ => [] end) cols.
Definition datetimes_of (cols : list column) : list datetime_column :=
  flat_map (fun c => match c with Dt l => [l] | _ => [] end) cols.
Definition floats_of (cols : list column) : list float_column :=
  flat_map (fun c => match c with Num l => [l] | _ => [] end) cols.

(** [df[[c1, c2, ...]]]: a new frame with the listed columns, [KeyError]
    with the labels that are not there. *)
Definition getitem_columns (r : ref) (cols : list column) : M ref :=
  df <- deref r ;;
  match flat_map (column_missing df) cols with
  | [] =>
      new {| object_block := block_select (object_block df) (objects_of cols);
             datetime_block := block_select (datetime_block df) (datetimes_of cols);
             float_block := block_select (float_block df) (floats_of cols) |}
  | missing => lift (Raise (KeyError missing))
  end.

(* ------------------------------------------------------------------ *)
(** * The program *)

(** [get_stock_type], lines 10-18 *)
Definition get_stock_type (code : string) : string :=
  if startswith code ["688"; "689"] then "kcb"
  else if startswith code ["300"] then "cyb"
  else if startswith code ["430"; "831"; "832"; "833"; "834"; "835"; "836";
                           "837"; "838"; "839"; "870"; "871"; "872"; "873"; "874"]
  then "bse"
  else "main".

(** The rate chosen at lines 31-36. *)
Definition limit_rate_of (stock_type : string) : float :=
  if existsb (String.eqb stock_type) ["kcb"; "cyb"] then 0.20%float
  else if String.eqb stock_type "bse" then 0.30%float
  else 0.10%float.

(** [calc_limit_price], lines 25-40 *)
Definition calc_limit_price (row : Row) : result float :=
  prev <~ row_get (row_float row) prev_close ;;
  if isna prev then Ok PrimFloat.nan
  else
    code <~ row_get (row_object row) ts_code ;;
    let stock_type := get_stock_type code in
    let limit_rate := limit_rate_of stock_type in
    Ok (round (prev * (1 + limit_rate))%float 2).

(** [calculate_limit_price], lines 5-43 *)
Definition calculate_limit_price (stock_data : ref) : M ref :=
  stock_data <- sort_values stock_data ts_code trade_date ;;
  shifted <- groupby_shift stock_data ts_code close ;;
  _ <- setitem_float stock_data prev_close shifted ;;
  prices <- apply stock_data calc_limit_price ;;
  _ <- setitem_float stock_data limit_price prices ;;
  ret stock_data.

(** [classify_limit], lines 64-68 *)
Definition classify_limit (row : Row) : result string :=
  c <~ row_get (row_float row) close ;;
  lp <~ row_get (row_float row) limit_price ;;
  if ge c lp then Ok "封死涨停" else Ok "炸板".

Definition result_columns : list column :=
  [Obj ts_code; Dt trade_date; Num open; Num close; Num high; Num low;
   Num zhangtingjia; Obj limit_type].

(** [identify_limit_stocks], lines 45-77 *)
Definition identify_limit_stocks (stock_data : ref) : M ref :=
  codes <- getitem_object stock_data ts_code ;;
  stock_data <- getitem_mask stock_data (invert (str_contains "ST" false codes)) ;;
  stock_data <- calculate_limit_price stock_data ;;
  h <- getitem_float stock_data high ;;
  lp <- getitem_float stock_data limit_price ;;
  c <- getitem_float stock_data close ;;
  lp' <- getitem_float stock_data limit_price ;;
  let limit_conditions := series_or (series_ge h lp) (series_ge c lp') in
  limit_stocks <- getitem_mask stock_data limit_conditions ;;
  limit_stocks <- copy limit_stocks ;;
  types <- apply limit_stocks classify_limit ;;
  _ <- setitem_object limit_stocks limit_type types ;;
  lp <- getitem_float limit_stocks limit_price ;;
  _ <- setitem_float limit_stocks zhangtingjia lp ;;
  getitem_columns limit_stocks result_columns.

(** [analyze_specific_date], lines 134-148, for a [target_date] that is a
    timestamp already. *)
Definition analyze_specific_date (df : ref) (target_date : Z) : M ref :=
  dates <- getitem_datetime df trade_date ;;
  daily_data <- getitem_mask df (series_eq dates target_date) ;;
  limit_stocks <- identify_limit_stocks daily_data ;;
  types <- getitem_object limit_stocks limit_type ;;
  _ <- emit (Print "{} 涨停统计:" [target_date]) ;;
  _ <- emit (Print "封死涨停: {} 只"
               [Z.of_nat (count_occ string_dec types "封死涨停")]) ;;
  _ <- emit (Print "炸板: {} 只"
               [Z.of_nat (count_occ string_dec types "炸板")]) ;;
  ret limit_stocks.

Definition required_columns : list string :=
  ["ts_code"; "trade_date"; "open"; "close"; "high"; "low"].

(** What [pd.read_pickle] gave. *)
Inductive pickle :=
| FileNotFound
| ReadError
| Loaded (df : DataFrame).

Section Main.
(** Lines 106-118 count the events per day and kind with pandas'
    [groupby], [size] and [unstack]; the table they build is taken as
    given. *)
Variable daily_statistics : DataFrame -> result (list (Z * nat * nat * nat)).

(** [main], lines 79-131.  The frames of this development hold
    [trade_date] as a datetime64 column; for them the condition of line 98
    is false and the conversion of line 99 does not run.  A frame whose dates
    have another dtype, which line 99 would convert in place, is not among
    them. *)
Definition main (pkl : pickle) : M unit :=
  match pkl with
  | FileNotFound => emit (Print "文件未找到，请检查文件路径" [])
  | ReadError => emit (Print "读取文件时出错: {}" [])
  | Loaded data =>
      df <- new data ;;
      _ <- emit (Print "成功读取数据，共{}条记录" [Z.of_nat (len data)]) ;;
      if negb (forallb (fun col => existsb (String.eqb col) (columns data))
                 required_columns)
      then emit (Print "数据列不完整，请检查数据格式" [])
      else
        _ <- emit (Print "正在统计涨停股票..." []) ;;
        limit_stocks <- identify_limit_stocks df ;;
        events <- deref limit_stocks ;;
        daily_stats <- lift (daily_statistics events) ;;
        _ <- emit (ToCsvCounts "daily_limit_statistics.csv" daily_stats) ;;
        _ <- emit (ToCsv "detailed_limit_stocks.csv" events) ;;
        types <- getitem_object limit_stocks limit_type ;;
        _ <- emit (Print "统计完成！" []) ;;
        _ <- emit (Print "共发现 {} 次涨停事件" [Z.of_nat (len events)]) ;;
        _ <- emit (Print "封死涨停: {} 次"
                     [Z.of_nat (count_occ string_dec types "封死涨停")]) ;;
        _ <- emit (Print "炸板: {} 次"
                     [Z.of_nat (count_occ string_dec types "炸板")]) ;;
        emit (Print "结果已保存到 daily_limit_statistics.csv 和 detailed_limit_stocks.csv" [])
  end.
End Main.

(* ------------------------------------------------------------------ *)
(** * Panels of bars, row by row *)

(** One daily bar: a row of the input panel. *)
Record bar := {
  b_ts_code : string;
  b_trade_date : Z;
  b_open : float;
  b_close : float;
  b_high : float;
  b_low : float
}.

(** A row of the frame [calculate_limit_price] returns. *)
Record priced := {
  p_bar : bar;
  p_prev_close : float;
  p_limit_price : float
}.

(** A row of the frame [identify_limit_stocks] returns; [e_limit_price] is
    its column 涨停价. *)
Record event := {
  e_bar : bar;
  e_limit_price : float;
  e_limit_type : string
}.

(** The column of an object block that holds the field [f] of every row. *)
Definition tabulate {L X A} (fields : list (L * (X -> A))) (rows : list X)
  : block L A :=
  map (fun lf => (fst lf, map (snd lf) rows)) fields.

Definition tabulate_row {L X A} (fields : list (L * (X -> A))) (x : X)
  : list (L * A) :=
  map (fun lf => (fst lf, snd lf x)) fields.

(** The frame whose columns are the listed fields of the given rows. *)
Definition table {X} (os : list (object_column * (X -> string)))
    (ds : list (datetime_column * (X -> Z)))
    (fs : list (float_column * (X -> float))) (rows : list X) : DataFrame :=
  {| object_block := tabulate os rows;
     datetime_block := tabulate ds rows;
     float_block := tabulate fs rows |}.

Definition table_row {X} (os : list (object_column * (X -> string)))
    (ds : list (datetime_column * (X -> Z)))
    (fs : list (float_column * (X -> float))) (x : X) : Row :=
  {| row_object := tabulate_row os x;
     row_datetime := tabulate_row ds x;
     row_float := tabulate_row fs x |}.

Definition bar_floats : list (float_column * (bar -> float)) :=
  [(open, b_open); (close, b_close); (high, b_high); (low, b_low)].

(** The panel with the six input columns and the given rows. *)
Definition frame_of_bars (bs : list bar) : DataFrame :=
  table [(ts_code, b_ts_code)] [(trade_date, b_trade_date)] bar_floats bs.

(** The sorted panel with the column [prev_close] added (line 22). *)
Definition frame_of_shifted (rows : list (bar * float)) : DataFrame :=
  table [(ts_code, fun x => b_ts_code (fst x))]
    [(trade_date, fun x => b_trade_date (fst x))]
    [(open, fun x => b_open (fst x)); (close, fun x => b_close (fst x));
     (high, fun x => b_high (fst x)); (low, fun x => b_low (fst x));
     (prev_close, snd)] rows.

(** The frame [calculate_limit_price] returns, from its rows. *)
Definition frame_of_priced (ps : list priced) : DataFrame :=
  table [(ts_code, fun p => b_ts_code (p_bar p))]
    [(trade_date, fun p => b_trade_date (p_bar p))]
    [(open, fun p => b_open (p_bar p)); (close, fun p => b_close (p_bar p));
     (high, fun p => b_high (p_bar p)); (low, fun p => b_low (p_bar p));
     (prev_close, p_prev_close); (limit_price, p_limit_price)] ps.

(** The frame [identify_limit_stocks] returns, from its rows. *)
Definition frame_of_events (es : list event) : DataFrame :=
  table [(ts_code, fun e => b_ts_code (e_bar e)); (limit_type, e_limit_type)]
    [(trade_date, fun e => b_trade_date (e_bar e))]
    [(open, fun e => b_open (e_bar e)); (close, fun e => b_close (e_bar e));
     (high, fun e => b_high (e_bar e)); (low, fun e => b_low (e_bar e));
     (zhangtingjia, e_limit_price)] es.

Definition bar_of_row (row : Row) : result bar :=
  code <~ row_get (row_object row) ts_code ;;
  date <~ row_get (row_datetime row) trade_date ;;
  o <~ row_get (row_float row) open ;;
  c <~ row_get (row_float row) close ;;
  h <~ row_get (row_float row) high ;;
  l <~ row_get (row_float row) low ;;
  Ok {| b_ts_code := code; b_trade_date := date; b_open := o;
        b_close := c; b_high := h; b_low := l |}.

Definition priced_of_row (row : Row) : result priced :=
  b <~ bar_of_row row ;;
  prev <~ row_get (row_float row) prev_close ;;
  lp <~ row_get (row_float row) limit_price ;;
  Ok {| p_bar := b; p_prev_close := prev; p_limit_price := lp |}.

Definition event_of_row (row : Row) : result event :=
  b <~ bar_of_row row ;;
  lp <~ row_get (row_float row) zhangtingjia ;;
  ty <~ row_get (row_object row) limit_type ;;
  Ok {| e_bar := b; e_limit_price := lp; e_limit_type := ty |}.

(** Calling a function of the program on a panel that is the only frame of
    the store; the frame it returns. *)
Definition call (f : ref -> M ref) (df : DataFrame) : result DataFrame :=
  match f 0%nat {| heap := [df]; stdout := [] |} with
  | (Ok r, s) =>
      match nth_error (heap s) r with
      | Some out => Ok out
      | None => Raise InvalidRef
      end
  | (Raise e, _) => Raise e
  end.

(** The rows [calculate_limit_price] returns for the panel [bs]. *)
Definition priced_rows (bs : list bar) : result (list priced) :=
  df <~ call calculate_limit_price (frame_of_bars bs) ;;
  mapM priced_of_row (iterrows df).

(** The rows [identify_limit_stocks] returns for the panel [bs]. *)
Definition limit_stocks (bs : list bar) : result (list event) :=
  df <~ call identify_limit_stocks (frame_of_bars bs) ;;
  mapM event_of_row (iterrows df).

(** The rows [analyze_specific_date] returns for the panel [bs]. *)
Definition limit_stocks_on (bs : list bar) (target_date : Z) : result (list event) :=
  df <~ call (fun r => analyze_specific_date r target_date) (frame_of_bars bs) ;;
  mapM event_of_row (iterrows df).

(** ** The same pipeline read row by row *)

(** Line 50: the rows the ST filter keeps. *)
Definition kept (b : bar) : bool := negb (search false "ST" (b_ts_code b)).

Definition bar_key (b : bar) : string * Z := (b_ts_code b, b_trade_date b).

Definition bar_le (a b : bar) : bool := key_le (bar_key a) (bar_key b).

(** Line 22, on rows: the previous close of the same instrument. *)
Fixpoint attach_prev_close (seen : list (string * float)) (bs : list bar)
  : list (bar * float) :=
  match bs with
  | [] => []
  | b :: bs' =>
      (b, last_seen seen (b_ts_code b))
      :: attach_prev_close ((b_ts_code b, b_close b) :: seen) bs'
  end.

(** Lines 25-40, on a bar and its previous close. *)
Definition price (bp : bar * float) : priced :=
  {| p_bar := fst bp;
     p_prev_close := snd bp;
     p_limit_price :=
       if isna (snd bp) then PrimFloat.nan
       else round (snd bp * (1 + limit_rate_of (get_stock_type (b_ts_code (fst bp)))))%float 2 |}.

Definition priced_of (bs : list bar) : list priced :=
  map price (attach_prev_close [] (isort bar_le bs)).

(** Lines 56-59 on a row. *)
Definition limit_condition (p : priced) : bool :=
  ge (b_high (p_bar p)) (p_limit_price p) || ge (b_close (p_bar p)) (p_limit_price p).

(** Lines 64-77 on a row. *)
Definition event_of (p : priced) : event :=
  {| e_bar := p_bar p;
     e_limit_price := p_limit_price p;
     e_limit_type :=
       if ge (b_close (p_bar p)) (p_limit_price p) then "封死涨停" else "炸板" |}.

(** The copy of the qualifying rows with the columns [limit_type] and
    涨停价 added (lines 61-73). *)
Definition frame_of_classified (ps : list priced) : DataFrame :=
  table [(ts_code, fun p => b_ts_code (p_bar p));
         (limit_type, fun p => e_limit_type (event_of p))]
    [(trade_date, fun p => b_trade_date (p_bar p))]
    [(open, fun p => b_open (p_bar p)); (close, fun p => b_close (p_bar p));
     (high, fun p => b_high (p_bar p)); (low, fun p => b_low (p_bar p));
     (prev_close, p_prev_close); (limit_price, p_limit_price);
     (zhangtingjia, p_limit_price)] ps.

Definition events_of (bs : list bar) : list event :=
  map event_of (filter limit_condition (priced_of (filter kept bs))).

(** ** The specification's vocabulary *)

Inductive BoardCategory := MAIN | CHINEXT | STAR | NEEQ.

(** The board a stock type of the program stands for. *)
Definition board_of (stock_type : string) : option BoardCategory :=
  if String.eqb stock_type "kcb" then Some STAR
  else if String.eqb stock_type "cyb" then Some CHINEXT
  else if String.eqb stock_type "bse" then Some NEEQ
  else if String.eqb stock_type "main" then Some MAIN
  else None.

(** The specification's table [rate_for]. *)
Definition rate_for (c : BoardCategory) : float :=
  match c with
  | STAR | CHINEXT => 0.20%float
  | NEEQ => 0.30%float
  | MAIN => 0.10%float
  end.

Definition NEEQ_prefixes : list string :=
  ["430"; "831"; "832"; "833"; "834"; "835"; "836"; "837"; "838"; "839";
   "870"; "871"; "872"; "873"; "874"].

Inductive LimitEvent := NONE | SEALED | BROKEN.

(** The specification's rule of step 5, word for word. *)
Definition spec_limit_event (high_ close_ limit : float) : LimitEvent :=
  if ge high_ limit || ge close_ limit then
    if ge close_ limit then SEALED else BROKEN
  else NONE.

(** What the output holds for a row, given its classification: nothing for
    [NONE], one row with the program's label otherwise. *)
Definition reported (p : priced) : list event :=
  match spec_limit_event (b_high (p_bar p)) (b_close (p_bar p)) (p_limit_price p) with
  | NONE => []
  | SEALED => [{| e_bar := p_bar p; e_limit_price := p_limit_price p;
                  e_limit_type := "封死涨停" |}]
  | BROKEN => [{| e_bar := p_bar p; e_limit_price := p_limit_price p;
                  e_limit_type := "炸板" |}]
  end.

(** Two bars of a panel share instrument and date. *)
Definition same_key (a b : bar) : bool :=
  String.eqb (b_ts_code a) (b_ts_code b) && Z.eqb (b_trade_date a) (b_trade_date b).

Fixpoint has_duplicate_key (bs : list bar) : bool :=
  match bs with
  | [] => false
  | b :: bs' => existsb (same_key b) bs' || has_duplicate_key bs'
  end.

(** A price that is not positive (zero, negative; NaN is not counted). *)
Definition non_positive (x : float) : bool := PrimFloat.leb x 0%float.

Definition has_non_positive_price (b : bar) : bool :=
  non_positive (b_open b) || non_positive (b_close b)
  || non_positive (b_high b) || non_positive (b_low b).

Definition mkbar (code : string) (date : Z) (o c h l : float) : bar :=
  {| b_ts_code := code; b_trade_date := date; b_open := o; b_close := c;
     b_high := h; b_low := l |}.

(** ** Frames a computation leaves alone *)

(** [m] leaves the first [n] frames of the store as they are, whether it
    returns or raises, and what it returns satisfies [Q]. *)
Definition preserves {A} (n : nat) (m : M A) (Q : A -> Prop) : Prop :=
  forall s, (n <= List.length (heap s))%nat ->
    firstn n (heap (snd (m s))) = firstn n (heap s)
    /\ (n <= List.length (heap (snd (m s))))%nat
    /\ forall a, fst (m s) = Ok a -> Q a.

(** A reference to a frame allocated after the first [n]. *)
Definition fresh (n : nat) (r : ref) : Prop := (n <= r)%nat.

Definition any {A} (_ : A) : Prop := True.

(** ** The first bar of an instrument *)


(** The state [main] starts in: no frame, nothing printed. *)
Definition start : state := {| heap := []; stdout := [] |}.

(** ** Panels used as examples *)

(** An instrument of the main board that closed at 10.00 on day 1 and, on
    day 2, closes at its limit price 11.00. *)
Definition sealed_panel : list bar :=
  [mkbar "600000.SH" 1 10 10 10 10; mkbar "600000.SH" 2 10.5 11 11 10.4]%float.

(** The same, touching 11.00 during day 2 and closing at 10.95. *)
Definition broken_panel : list bar :=
  [mkbar "600000.SH" 1 10 10 10 10; mkbar "600000.SH" 2 10.5 10.95 11 10.4]%float.

(** The same, with a high of 10.99 on day 2. *)
Definition quiet_panel : list bar :=
  [mkbar "600000.SH" 1 10 10 10 10; mkbar "600000.SH" 2 10.5 10.95 10.99 10.4]%float.

Definition star_panel : list bar :=
  [mkbar "688001.SH" 1 50 50 50 50; mkbar "688001.SH" 2 50 50 50 50]%float.

Definition neeq_panel : list bar :=
  [mkbar "831010.BJ" 1 20 20 20 20; mkbar "831010.BJ" 2 20 20 20 20]%float.

(** Two bars of one instrument with the same date. *)
Definition duplicate_panel : list bar :=
  [mkbar "600000.SH" 5 10 10 10 10; mkbar "600000.SH" 5 10.5 11 11 10.4]%float.

(** A single bar. *)
Definition lone_panel : list bar :=
  [mkbar "600000.SH" 1 10 10 10 10]%float.

(** Negative prices on both days. *)
Definition negative_panel : list bar :=
  [mkbar "600000.SH" 1 (-10) (-10) (-10) (-10);
   mkbar "600000.SH" 2 (-11) (-11) (-11) (-11)]%float.

(** A panel without the column [low]. *)
Definition no_low_frame : DataFrame :=
  table [(ts_code, b_ts_code)] [(trade_date, b_trade_date)]
    [(open, b_open); (close, b_close); (high, b_high)] sealed_panel.

(** ** Vocabulary for further properties *)

(** Rows in the order of line 21: by instrument code, then by date. *)
Definition key_sorted (l : list bar) : Prop :=
  StronglySorted (fun a b => bar_le a b = true) l.

(** The close of the row just before, when it is of the same instrument. *)
Definition close_of_previous (prev : option bar) (b : bar) : float :=
  match prev with
  | Some a => if String.eqb (b_ts_code a) (b_ts_code b) then b_close a
              else PrimFloat.nan
  | None => PrimFloat.nan
  end.

(** Every row's [prev_close] is the close of the row just before it in the
    frame when that row is of the same instrument, and NaN otherwise;
    [prev] is the bar before the first row. *)
Fixpoint shifted_from (prev : option bar) (ps : list priced) : Prop :=
  match ps with
  | [] => True
  | p :: ps' =>
      p_prev_close p = close_of_previous prev (p_bar p)
      /\ shifted_from (Some (p_bar p)) ps'
  end.

(** The six columns [main] asks for, as the methods look them up. *)
Definition has_required_columns (df : DataFrame) : Prop :=
  block_get (object_block df) ts_code <> None
  /\ block_get (datetime_block df) trade_date <> None
  /\ block_get (float_block df) open <> None
  /\ block_get (float_block df) close <> None
  /\ block_get (float_block df) high <> None
  /\ block_get (float_block df) low <> None.

Definition same_code (k : string) (b : bar) : bool := String.eqb (b_ts_code b) k.

(** A frame has the column [l]. *)
Definition has_object (df : DataFrame) (l : object_column) : Prop :=
  exists col, block_get (object_block df) l = Some col.
Definition has_datetime (df : DataFrame) (l : datetime_column) : Prop :=
  exists col, block_get (datetime_block df) l = Some col.
Definition has_float (df : DataFrame) (l : float_column) : Prop :=
  exists col, block_get (float_block df) l = Some col.

(** The tables a run wrote, in order. *)
Definition csv_writes (out : list output) : list output :=
  filter (fun o => match o with Print _ _ => false | _ => true end) out.

(** A panel without the column [ts_code]. *)
Definition no_code_frame : DataFrame :=
  table [] [(trade_date, b_trade_date)] bar_floats sealed_panel.

(** ** Rows with a given key *)

(** The bar is of instrument [fst k] on date [snd k]. *)
Definition has_key (k : string * Z) (b : bar) : bool :=
  String.eqb (b_ts_code b) (fst k) && Z.eqb (b_trade_date b) (snd k).

(** ** Rounding in decimal *)

(** The integer nearest to [num / den], a tie going up (四舍五入, the words
    of the comment of line 38), for [0 <= num] and [0 < den]. *)
Definition round_half_up (num den : Z) : Z :=
  if (den <=? 2 * (num mod den))%Z then (num / den + 1)%Z else (num / den)%Z.

(** A previous close of [cents] hundredths raised by [percent] per cent,
    in hundredths, rounded by [rule]. *)
Definition decimal_limit (rule : Z -> Z -> Z) (cents percent : Z) : Z :=
  rule (cents * (100 + percent))%Z 100%Z.

(** A main-board instrument that closes at 1.45; the next day it touches
    1.59 and closes at 1.58. *)
Definition tie_panel : list bar :=
  [mkbar "600000.SH" 1 1.45 1.45 1.45 1.45;
   mkbar "600000.SH" 2 1.5 1.58 1.59 1.5]%float.

(** A main-board instrument that closes at 10.05. *)
Definition inexact_panel : list bar :=
  [mkbar "600000.SH" 1 10.05 10.05 10.05 10.05;
   mkbar "600000.SH" 2 10.5 10.5 10.5 10.5]%float.

(** ** Rounding to hundredths, as a relation *)

(** [n] is the integer nearest to [m * 2^e * 100], the even one of the two
    when they are equally near. *)
Definition nearest_hundredths (m : positive) (e : Z) (n : Z) : Prop :=
  match e with
  | Zneg k =>
      (2 * Z.abs (Zpos m * 100 - n * 2 ^ Zpos k) <= 2 ^ Zpos k)%Z
      /\ ((2 * Z.abs (Zpos m * 100 - n * 2 ^ Zpos k) = 2 ^ Zpos k)%Z ->
          Z.even n = true)
  | _ => n = (Zpos m * 2 ^ e * 100)%Z
  end.

(** [r] is the float [y] rounded to hundredths: the nearest number of
    hundredths of the exact value of [y], divided by 100 in binary64. *)
Definition rounded_to_hundredths (y r : float) : Prop :=
  match Prim2SF y with
  | S754_finite s m e =>
      exists n : Z,
        nearest_hundredths m e n
        /\ r = match n with
               | Zpos k => SF2Prim (SFdiv prec emax (S754_finite s k 0)
                                      (S754_finite false 100 0))
               | _ => SF2Prim (S754_zero s)
               end
  | _ => r = y
  end.

(** ** Codes of ASCII characters *)

Definition is_ascii (s : string) : bool :=
  forallb (fun c => (nat_of_ascii c <? 128)%nat) (list_ascii_of_string s).

Unset Implicit Arguments.

(* ------------------------------------------------------------------ *)
(** * Columns and rows *)

Lemma mask_rows_map {X A} (p : X -> bool) (f : X -> A) (l : list X) :
  mask_rows (map p l) (map f l) = map f (filter p l).
Proof.
  induction l as [|x l IH]; simpl; [reflexivity|].
  destruct (p x); simpl; now rewrite IH.
Qed.

Lemma take_map {X A} (f : X -> A) (idx : list nat) (l : list X) :
  take idx (map f l) = map f (take idx l).
Proof.
  unfold take.
  induction idx as [|i idx IH]; simpl; [reflexivity|].
  rewrite map_app, IH, nth_error_map.
  now destruct (nth_error l i).
Qed.

Lemma combine_map {X A B} (f : X -> A) (g : X -> B) (l : list X) :
  combine (map f l) (map g l) = map (fun x => (f x, g x)) l.
Proof. induction l; simpl; congruence. Qed.

Lemma repeat_map {X A} (a : A) (l : list X) :
  repeat a (List.length l) = map (fun _ => a) l.
Proof. induction l; simpl; congruence. Qed.

Lemma block_rows_tabulate {L X A} `{Label L}
    (fields : list (L * (X -> A))) (l : list X) :
  block_rows (List.length l) (tabulate fields l) = map (tabulate_row fields) l.
Proof.
  induction fields as [|[lab f] fields IH]; simpl.
  - apply repeat_map.
  - rewrite IH.
    change (fun x : X => tabulate_row fields x) with (tabulate_row fields).
    rewrite combine_map, map_map. reflexivity.
Qed.

Lemma block_map_tabulate {L X A} (g : list A -> list A) (h : list X -> list X)
    (fields : list (L * (X -> A))) (l : list X) :
  (forall f : X -> A, g (map f l) = map f (h l)) ->
  block_map g (tabulate fields l) = tabulate fields (h l).
Proof.
  intros Hg. unfold block_map, tabulate.
  rewrite map_map. apply map_ext. intros [lab f]. simpl. now rewrite Hg.
Qed.

Lemma zip_rows_map {X} (fo : X -> list (object_column * string))
    (fd : X -> list (datetime_column * Z)) (ff : X -> list (float_column * float))
    (l : list X) :
  zip_rows (map fo l) (map fd l) (map ff l)
  = map (fun x => {| row_object := fo x; row_datetime := fd x; row_float := ff x |}) l.
Proof. induction l; simpl; congruence. Qed.

(** The rows of a table are its rows. *)
Lemma iterrows_table {X} o os ds fs (l : list X) :
  iterrows (table (o :: os) ds fs l) = map (table_row (o :: os) ds fs) l.
Proof.
  unfold iterrows.
  assert (Hlen : len (table (o :: os) ds fs l) = List.length l).
  { unfold len. simpl. now rewrite length_map. }
  rewrite Hlen. cbn [table object_block datetime_block float_block].
  rewrite !block_rows_tabulate. apply zip_rows_map.
Qed.

Lemma reindex_mask_table {X} (p : X -> bool) os ds fs (l : list X) :
  reindex (mask_rows (map p l)) (table os ds fs l) = table os ds fs (filter p l).
Proof.
  unfold reindex, table. simpl.
  f_equal; apply block_map_tabulate; intros; apply mask_rows_map.
Qed.

Lemma reindex_take_table {X} idx os ds fs (l : list X) :
  reindex (take idx) (table os ds fs l) = table os ds fs (take idx l).
Proof.
  unfold reindex, table. simpl.
  f_equal; apply block_map_tabulate; intros; apply take_map.
Qed.

(* ------------------------------------------------------------------ *)
(** * The stable sort *)

Section SortFacts.
Variables (T U : Type) (leT : T -> T -> bool) (leU : U -> U -> bool).
Variable g : T -> U.
Hypothesis g_le : forall a b, leU (g a) (g b) = leT a b.

Lemma insert_map x l : insert leU (g x) (map g l) = map g (insert leT x l).
Proof.
  induction l as [|y l IH]; simpl; [reflexivity|].
  rewrite g_le. destruct (leT x y); simpl; congruence.
Qed.

Lemma isort_map l : isort leU (map g l) = map g (isort leT l).
Proof.
  induction l as [|x l IH]; simpl; [reflexivity|].
  now rewrite IH, insert_map.
Qed.
End SortFacts.

Section SortPerm.
Variables (T : Type) (le : T -> T -> bool).

Lemma insert_perm x l : Permutation (x :: l) (insert le x l).
Proof.
  induction l as [|y l IH]; simpl; [reflexivity|].
  destruct (le x y); [reflexivity|].
  rewrite perm_swap. now constructor.
Qed.

Lemma isort_perm l : Permutation l (isort le l).
Proof.
  induction l as [|x l IH]; simpl; [reflexivity|].
  rewrite <- insert_perm. now constructor.
Qed.

Lemma isort_Forall (P : T -> Prop) l : Forall P l -> Forall P (isort le l).
Proof. intros HP. eapply Permutation_Forall; [apply isort_perm|exact HP]. Qed.
End SortPerm.

Lemma combine_seq_nth {X} (pre l : list X) :
  Forall (fun ix => nth_error (pre ++ l) (fst ix) = Some (snd ix))
    (combine (seq (List.length pre) (List.length l)) l).
Proof.
  revert pre. induction l as [|x l IH]; intros pre; simpl; constructor.
  - simpl. rewrite nth_error_app2 by lia. now rewrite Nat.sub_diag.
  - specialize (IH (pre ++ [x])). rewrite <- app_assoc in IH. simpl in IH.
    rewrite length_app in IH. simpl in IH.
    now rewrite Nat.add_1_r in IH.
Qed.

Lemma take_positions {X} (l : list X) (qs : list (nat * X)) :
  Forall (fun ix => nth_error l (fst ix) = Some (snd ix)) qs ->
  take (map fst qs) l = map snd qs.
Proof.
  unfold take. induction 1 as [|[i x] qs Hx _ IH]; simpl; [reflexivity|].
  simpl in Hx. rewrite Hx. simpl. now rewrite IH.
Qed.

Lemma map_snd_combine_seq {X} k (l : list X) :
  map snd (combine (seq k (List.length l)) l) = l.
Proof. revert k. induction l; intros k; simpl; congruence. Qed.

(** Taking the rows at the sorted positions is sorting the rows. *)
Lemma take_argsort {X} (key : X -> string * Z) (l : list X) :
  take (argsort (map key l)) l
  = isort (fun a b => key_le (key a) (key b)) l.
Proof.
  unfold argsort. rewrite length_map.
  set (trip := combine (seq 0 (List.length l)) l).
  assert (Hc : combine (seq 0 (List.length l)) (map key l)
               = map (fun ix => (fst ix, key (snd ix))) trip).
  { subst trip. generalize 0%nat. induction l; intros k; simpl; congruence. }
  rewrite Hc.
  rewrite (isort_map _ _ (fun a b : nat * X => key_le (key (snd a)) (key (snd b))))
    by reflexivity.
  rewrite map_map. simpl.
  change (fun x : nat * X => fst x) with (@fst nat X).
  rewrite take_positions.
  - rewrite <- (isort_map _ _ (fun a b : nat * X => key_le (key (snd a)) (key (snd b)))
                  (fun a b => key_le (key a) (key b)) snd) by reflexivity.
    subst trip. now rewrite map_snd_combine_seq.
  - apply isort_Forall. subst trip. apply (combine_seq_nth [] l).
Qed.

Lemma shift_attach seen (l : list bar) :
  shift_in_groups seen (map b_ts_code l) (map b_close l)
  = map snd (attach_prev_close seen l).
Proof.
  revert seen. induction l as [|b l IH]; intros seen; simpl; [reflexivity|].
  now rewrite IH.
Qed.

Lemma map_fst_attach seen (l : list bar) :
  map fst (attach_prev_close seen l) = l.
Proof.
  revert seen. induction l as [|b l IH]; intros seen; simpl; [reflexivity|].
  now rewrite IH.
Qed.
(* ------------------------------------------------------------------ *)
(** * Running the methods *)

Lemma nth_error_snoc {A} (h : list A) d : nth_error (h ++ [d]) (List.length h) = Some d.
Proof. rewrite nth_error_app2 by lia. now rewrite Nat.sub_diag. Qed.

Lemma store_snoc h d d' : store (List.length h) d' (h ++ [d]) = h ++ [d'].
Proof. induction h; simpl; congruence. Qed.

Lemma bind_ok {A B} (m : M A) (k : A -> M B) s a s' :
  m s = (Ok a, s') -> bind m k s = k a s'.
Proof. unfold bind. now intros ->. Qed.

Lemma bind_raise {A B} (m : M A) (k : A -> M B) s e s' :
  m s = (Raise e, s') -> bind m k s = (Raise e, s').
Proof. unfold bind. now intros ->. Qed.

Lemma mapM_map_ok {X A B} (f : A -> result B) (g : X -> A) (h : X -> B) (l : list X) :
  (forall x, f (g x) = Ok (h x)) -> mapM f (map g l) = Ok (map h l).
Proof.
  intros Hf. induction l as [|x l IH]; simpl; [reflexivity|].
  now rewrite Hf, IH.
Qed.

Section Run.
Variables (h : list DataFrame) (out : list output).
Let s := {| heap := h; stdout := out |}.

Lemma deref_run r d : nth_error h r = Some d -> deref r s = (Ok d, s).
Proof. unfold deref. simpl. now intros ->. Qed.

Lemma getitem_object_run r d l col :
  nth_error h r = Some d -> block_get (object_block d) l = Some col ->
  getitem_object r l s = (Ok col, s).
Proof.
  intros Hr Hl. unfold getitem_object.
  rewrite (bind_ok _ _ _ _ _ (deref_run _ _ Hr)).
  unfold lift, getitem. now rewrite Hl.
Qed.

Lemma getitem_datetime_run r d l col :
  nth_error h r = Some d -> block_get (datetime_block d) l = Some col ->
  getitem_datetime r l s = (Ok col, s).
Proof.
  intros Hr Hl. unfold getitem_datetime.
  rewrite (bind_ok _ _ _ _ _ (deref_run _ _ Hr)).
  unfold lift, getitem. now rewrite Hl.
Qed.

Lemma getitem_float_run r d l col :
  nth_error h r = Some d -> block_get (float_block d) l = Some col ->
  getitem_float r l s = (Ok col, s).
Proof.
  intros Hr Hl. unfold getitem_float.
  rewrite (bind_ok _ _ _ _ _ (deref_run _ _ Hr)).
  unfold lift, getitem. now rewrite Hl.
Qed.

Lemma getitem_mask_run r d mask :
  nth_error h r = Some d ->
  getitem_mask r mask s
  = (Ok (List.length h),
     {| heap := h ++ [reindex (mask_rows mask) d]; stdout := out |}).
Proof.
  intros Hr. unfold getitem_mask.
  now rewrite (bind_ok _ _ _ _ _ (deref_run _ _ Hr)).
Qed.

Lemma copy_run r d :
  nth_error h r = Some d ->
  copy r s = (Ok (List.length h), {| heap := h ++ [d]; stdout := out |}).
Proof.
  intros Hr. unfold copy.
  now rewrite (bind_ok _ _ _ _ _ (deref_run _ _ Hr)).
Qed.

Lemma sort_values_run r d k1 k2 a b :
  nth_error h r = Some d ->
  block_get (object_block d) k1 = Some a ->
  block_get (datetime_block d) k2 = Some b ->
  sort_values r k1 k2 s
  = (Ok (List.length h),
     {| heap := h ++ [reindex (take (argsort (combine a b))) d]; stdout := out |}).
Proof.
  intros Hr Ha Hb. unfold sort_values.
  rewrite (bind_ok _ _ _ _ _ (deref_run _ _ Hr)).
  unfold getitem. rewrite Ha, Hb. reflexivity.
Qed.

Lemma groupby_shift_run r d key col k v :
  nth_error h r = Some d ->
  block_get (object_block d) key = Some k ->
  block_get (float_block d) col = Some v ->
  groupby_shift r key col s = (Ok (shift_in_groups [] k v), s).
Proof.
  intros Hr Hk Hv. unfold groupby_shift.
  rewrite (bind_ok _ _ _ _ _ (deref_run _ _ Hr)).
  unfold getitem. rewrite Hk, Hv. reflexivity.
Qed.

Lemma apply_run {B} r d (func : Row -> result B) l :
  nth_error h r = Some d -> apply_axis1 func d = Ok l ->
  apply r func s = (Ok l, s).
Proof.
  intros Hr Hl. unfold apply.
  rewrite (bind_ok _ _ _ _ _ (deref_run _ _ Hr)).
  unfold lift. now rewrite Hl.
Qed.
End Run.

(** Assignments to the frame allocated last. *)
Lemma setitem_float_run h out d l col :
  setitem_float (List.length h) l col {| heap := h ++ [d]; stdout := out |}
  = (Ok tt,
     {| heap := h ++ [{| object_block := object_block d;
                         datetime_block := datetime_block d;
                         float_block := block_set (float_block d) l col |}];
        stdout := out |}).
Proof.
  unfold setitem_float.
  rewrite (bind_ok _ _ _ _ _ (deref_run _ _ _ _ (nth_error_snoc h d))).
  unfold assign. simpl. now rewrite store_snoc.
Qed.

Lemma setitem_object_run h out d l col :
  setitem_object (List.length h) l col {| heap := h ++ [d]; stdout := out |}
  = (Ok tt,
     {| heap := h ++ [{| object_block := block_set (object_block d) l col;
                         datetime_block := datetime_block d;
                         float_block := float_block d |}];
        stdout := out |}).
Proof.
  unfold setitem_object.
  rewrite (bind_ok _ _ _ _ _ (deref_run _ _ _ _ (nth_error_snoc h d))).
  unfold assign. simpl. now rewrite store_snoc.
Qed.

Ltac step lem := erewrite bind_ok; [ | lem ].

Lemma calc_limit_price_row (bp : bar * float) :
  calc_limit_price
    (table_row [(ts_code, fun x : bar * float => b_ts_code (fst x))]
       [(trade_date, fun x : bar * float => b_trade_date (fst x))]
       [(open, fun x : bar * float => b_open (fst x));
        (close, fun x : bar * float => b_close (fst x));
        (high, fun x : bar * float => b_high (fst x));
        (low, fun x : bar * float => b_low (fst x));
        (prev_close, snd)] bp)
  = Ok (p_limit_price (price bp)).
Proof.
  unfold calc_limit_price, price. simpl.
  destruct (isna (snd bp)); reflexivity.
Qed.

Lemma map_fst_field {A} (f : bar -> A) seen sb :
  map (fun x => f (fst x)) (attach_prev_close seen sb) = map f sb.
Proof. now rewrite <- (map_map fst f), map_fst_attach. Qed.

Lemma frame_shifted seen sb :
  {| object_block := object_block (frame_of_bars sb);
     datetime_block := datetime_block (frame_of_bars sb);
     float_block := block_set (float_block (frame_of_bars sb)) prev_close
                      (map snd (attach_prev_close seen sb)) |}
  = frame_of_shifted (attach_prev_close seen sb).
Proof.
  unfold frame_of_shifted, frame_of_bars, table, tabulate, bar_floats. simpl.
  now rewrite !map_fst_field.
Qed.

Lemma frame_priced (att : list (bar * float)) :
  {| object_block := object_block (frame_of_shifted att);
     datetime_block := datetime_block (frame_of_shifted att);
     float_block := block_set (float_block (frame_of_shifted att)) limit_price
                      (map (fun bp => p_limit_price (price bp)) att) |}
  = frame_of_priced (map price att).
Proof.
  unfold frame_of_shifted, frame_of_priced, table, tabulate. simpl.
  now rewrite !map_map.
Qed.

Lemma calculate_limit_price_run h out r bs :
  nth_error h r = Some (frame_of_bars bs) ->
  calculate_limit_price r {| heap := h; stdout := out |}
  = (Ok (List.length h),
     {| heap := h ++ [frame_of_priced (priced_of bs)]; stdout := out |}).
Proof.
  intros Hr. unfold calculate_limit_price.
  step ltac:(eapply (sort_values_run _ _ _ _ _ _ (map b_ts_code bs) (map b_trade_date bs));
             [exact Hr | reflexivity | reflexivity]).
  rewrite combine_map. change (fun x : bar => (b_ts_code x, b_trade_date x)) with bar_key.
  unfold frame_of_bars at 1. rewrite reindex_take_table, take_argsort.
  change (fun a b : bar => key_le (bar_key a) (bar_key b)) with bar_le.
  fold (frame_of_bars (isort bar_le bs)).
  step ltac:(eapply (groupby_shift_run _ _ _ _ _ _ (map b_ts_code (isort bar_le bs))
                       (map b_close (isort bar_le bs)));
             [apply nth_error_snoc | reflexivity | reflexivity]).
  rewrite shift_attach.
  step ltac:(apply setitem_float_run).
  rewrite frame_shifted.
  step ltac:(eapply apply_run; [apply nth_error_snoc | ];
             unfold apply_axis1, frame_of_shifted; rewrite iterrows_table;
             apply mapM_map_ok; exact calc_limit_price_row).
  step ltac:(apply setitem_float_run).
  rewrite frame_priced. reflexivity.
Qed.

Lemma limit_conditions_rows (ps : list priced) :
  series_or
    (series_ge (map (fun p => b_high (p_bar p)) ps) (map p_limit_price ps))
    (series_ge (map (fun p => b_close (p_bar p)) ps) (map p_limit_price ps))
  = map limit_condition ps.
Proof.
  unfold series_or, series_ge.
  rewrite !combine_map, !map_map, combine_map, map_map. reflexivity.
Qed.

Lemma kept_mask (bs : list bar) :
  invert (str_contains "ST" false (map b_ts_code bs)) = map kept bs.
Proof. unfold invert, str_contains. now rewrite !map_map. Qed.

Lemma reindex_mask_bars (p : bar -> bool) bs :
  reindex (mask_rows (map p bs)) (frame_of_bars bs) = frame_of_bars (filter p bs).
Proof. apply reindex_mask_table. Qed.

Lemma reindex_mask_priced (p : priced -> bool) ps :
  reindex (mask_rows (map p ps)) (frame_of_priced ps) = frame_of_priced (filter p ps).
Proof. apply reindex_mask_table. Qed.

Lemma classify_limit_row (p : priced) :
  classify_limit
    (table_row [(ts_code, fun p => b_ts_code (p_bar p))]
       [(trade_date, fun p => b_trade_date (p_bar p))]
       [(open, fun p => b_open (p_bar p)); (close, fun p => b_close (p_bar p));
        (high, fun p => b_high (p_bar p)); (low, fun p => b_low (p_bar p));
        (prev_close, p_prev_close); (limit_price, p_limit_price)] p)
  = Ok (e_limit_type (event_of p)).
Proof.
  unfold classify_limit, event_of. simpl.
  destruct (ge (b_close (p_bar p)) (p_limit_price p)); reflexivity.
Qed.

Lemma frame_classified (qs : list priced) :
  {| object_block :=
       object_block
         {| object_block :=
              block_set (object_block (frame_of_priced qs)) limit_type
                (map (fun p => e_limit_type (event_of p)) qs);
            datetime_block := datetime_block (frame_of_priced qs);
            float_block := float_block (frame_of_priced qs) |};
     datetime_block :=
       datetime_block
         {| object_block :=
              block_set (object_block (frame_of_priced qs)) limit_type
                (map (fun p => e_limit_type (event_of p)) qs);
            datetime_block := datetime_block (frame_of_priced qs);
            float_block := float_block (frame_of_priced qs) |};
     float_block :=
       block_set
         (float_block
            {| object_block :=
                 block_set (object_block (frame_of_priced qs)) limit_type
                   (map (fun p => e_limit_type (event_of p)) qs);
               datetime_block := datetime_block (frame_of_priced qs);
               float_block := float_block (frame_of_priced qs) |})
         zhangtingjia (map p_limit_price qs) |}
  = frame_of_classified qs.
Proof. reflexivity. Qed.

Lemma frame_events (ps : list priced) :
  {| object_block :=
       block_select (object_block (frame_of_classified ps)) (objects_of result_columns);
     datetime_block :=
       block_select (datetime_block (frame_of_classified ps)) (datetimes_of result_columns);
     float_block :=
       block_select (float_block (frame_of_classified ps)) (floats_of result_columns) |}
  = frame_of_events (map event_of ps).
Proof.
  unfold frame_of_classified, frame_of_events, table, tabulate. simpl.
  now rewrite !map_map.
Qed.

Lemma getitem_columns_classified h out ps :
  getitem_columns (List.length h) result_columns
    {| heap := h ++ [frame_of_classified ps]; stdout := out |}
  = (Ok (List.length (h ++ [frame_of_classified ps])),
     {| heap := (h ++ [frame_of_classified ps]) ++ [frame_of_events (map event_of ps)];
        stdout := out |}).
Proof.
  unfold getitem_columns.
  rewrite (bind_ok _ _ _ _ _ (deref_run _ _ _ _ (nth_error_snoc h _))).
  change (flat_map (column_missing (frame_of_classified ps)) result_columns)
    with (@nil string).
  cbv iota. unfold new. cbn [heap stdout]. now rewrite frame_events.
Qed.

(** The run of [identify_limit_stocks] on a panel of bars: it allocates
    four working frames and then the frame of its events. *)
Lemma identify_limit_stocks_run h out r bs :
  nth_error h r = Some (frame_of_bars bs) ->
  exists mid,
    identify_limit_stocks r {| heap := h; stdout := out |}
    = (Ok (List.length (h ++ mid)),
       {| heap := (h ++ mid) ++ [frame_of_events (events_of bs)]; stdout := out |}).
Proof.
  intros Hr.
  set (ps := priced_of (filter kept bs)).
  set (qs := filter limit_condition ps).
  exists [frame_of_bars (filter kept bs); frame_of_priced ps;
          frame_of_priced qs; frame_of_classified qs].
  unfold identify_limit_stocks.
  step ltac:(eapply (getitem_object_run _ _ _ _ _ (map b_ts_code bs));
             [exact Hr | reflexivity]).
  step ltac:(eapply getitem_mask_run; exact Hr).
  rewrite kept_mask, reindex_mask_bars.
  step ltac:(apply calculate_limit_price_run; apply nth_error_snoc).
  fold ps.
  set (h1 := h ++ [frame_of_bars (filter kept bs)]).
  step ltac:(eapply (getitem_float_run _ _ _ _ _ (map (fun p => b_high (p_bar p)) ps));
             [apply nth_error_snoc | reflexivity]).
  step ltac:(eapply (getitem_float_run _ _ _ _ _ (map p_limit_price ps));
             [apply nth_error_snoc | reflexivity]).
  step ltac:(eapply (getitem_float_run _ _ _ _ _ (map (fun p => b_close (p_bar p)) ps));
             [apply nth_error_snoc | reflexivity]).
  step ltac:(eapply (getitem_float_run _ _ _ _ _ (map p_limit_price ps));
             [apply nth_error_snoc | reflexivity]).
  rewrite limit_conditions_rows.
  step ltac:(eapply getitem_mask_run; apply nth_error_snoc).
  rewrite reindex_mask_priced. fold qs.
  set (h2 := h1 ++ [frame_of_priced ps]).
  step ltac:(eapply copy_run; apply nth_error_snoc).
  set (h3 := h2 ++ [frame_of_priced qs]).
  step ltac:(eapply apply_run; [apply nth_error_snoc | ];
             unfold apply_axis1, frame_of_priced; rewrite iterrows_table;
             apply mapM_map_ok; exact classify_limit_row).
  step ltac:(apply setitem_object_run).
  step ltac:(eapply (getitem_float_run _ _ _ _ _ (map p_limit_price qs));
             [apply nth_error_snoc | reflexivity]).
  step ltac:(apply setitem_float_run).
  rewrite frame_classified, getitem_columns_classified.
  subst h3 h2 h1. rewrite <- !app_assoc. reflexivity.
Qed.

(* ------------------------------------------------------------------ *)
(** * The program on panels of bars *)

Lemma decode_priced (ps : list priced) :
  mapM priced_of_row (iterrows (frame_of_priced ps)) = Ok ps.
Proof.
  unfold frame_of_priced. rewrite iterrows_table.
  rewrite (mapM_map_ok _ _ (fun p => p)); [now rewrite map_id|].
  intros [[code date o c hi lo] prev lp]. reflexivity.
Qed.

Lemma decode_events (es : list event) :
  mapM event_of_row (iterrows (frame_of_events es)) = Ok es.
Proof.
  unfold frame_of_events. rewrite iterrows_table.
  rewrite (mapM_map_ok _ _ (fun e => e)); [now rewrite map_id|].
  intros [[code date o c hi lo] lp ty]. reflexivity.
Qed.

(** On a panel of bars [calculate_limit_price] returns, and its rows are
    the sorted bars with their previous close and limit price. *)
Lemma priced_rows_eq (bs : list bar) : priced_rows bs = Ok (priced_of bs).
Proof.
  unfold priced_rows, call.
  rewrite (calculate_limit_price_run [frame_of_bars bs] [] 0 bs eq_refl).
  cbn [heap nth_error List.length app rbind]. apply decode_priced.
Qed.

(** On a panel of bars [identify_limit_stocks] returns, and its rows are
    the qualifying rows of the kept bars. *)
Lemma limit_stocks_eq (bs : list bar) : limit_stocks bs = Ok (events_of bs).
Proof.
  unfold limit_stocks, call.
  destruct (identify_limit_stocks_run [frame_of_bars bs] [] 0 bs eq_refl) as [mid ->].
  cbn [heap]. rewrite nth_error_snoc. cbn [rbind]. apply decode_events.
Qed.

Lemma date_mask (bs : list bar) d :
  series_eq (map b_trade_date bs) d = map (fun b => Z.eqb (b_trade_date b) d) bs.
Proof. unfold series_eq. now rewrite map_map. Qed.

Lemma emit_run h out o :
  emit o {| heap := h; stdout := out |}
  = (Ok tt, {| heap := h; stdout := out ++ [o] |}).
Proof. reflexivity. Qed.

(** On a panel of bars [analyze_specific_date] returns the events of the
    bars of that date taken alone. *)
Lemma limit_stocks_on_eq (bs : list bar) (d : Z) :
  limit_stocks_on bs d
  = Ok (events_of (filter (fun b => Z.eqb (b_trade_date b) d) bs)).
Proof.
  unfold limit_stocks_on, call, analyze_specific_date.
  step ltac:(eapply (getitem_datetime_run _ _ _ _ _ (map b_trade_date bs));
             [reflexivity | reflexivity]).
  step ltac:(eapply getitem_mask_run; reflexivity).
  rewrite date_mask, reindex_mask_bars.
  set (day := filter (fun b => Z.eqb (b_trade_date b) d) bs).
  destruct (identify_limit_stocks_run
              ([frame_of_bars bs] ++ [frame_of_bars day]) [] 1 day eq_refl)
    as [mid Hrun].
  step ltac:(exact Hrun).
  step ltac:(eapply (getitem_object_run _ _ _ _ _ (map e_limit_type (events_of day)));
             [apply nth_error_snoc | reflexivity]).
  rewrite !(bind_ok _ _ _ _ _ (emit_run _ _ _)).
  unfold ret. cbn [heap]. rewrite nth_error_snoc. cbn [rbind]. apply decode_events.
Qed.

(* ------------------------------------------------------------------ *)
(** * The frames of the caller are left alone *)

Lemma preserves_bind {A B} n (m : M A) (k : A -> M B) Q Q' :
  preserves n m Q -> (forall a, Q a -> preserves n (k a) Q') ->
  preserves n (bind m k) Q'.
Proof.
  intros Hm Hk s Hs. unfold bind.
  destruct (Hm s Hs) as (Hfirst & Hlen & HQ).
  destruct (m s) as [[a|e] s1]; simpl in *.
  - destruct (Hk a (HQ a eq_refl) s1 Hlen) as (Hfirst' & Hlen' & HQ').
    repeat split; [congruence|assumption|assumption].
  - repeat split; [assumption|assumption|discriminate].
Qed.

Lemma preserves_pure {A} n (m : M A) :
  (forall s, snd (m s) = s) -> preserves n m any.
Proof.
  intros Hm s Hs. rewrite Hm. repeat split; auto.
Qed.

Lemma preserves_ret {A} n (a : A) (Q : A -> Prop) : Q a -> preserves n (ret a) Q.
Proof. intros Ha s Hs. repeat split; auto. simpl. now intros ? [= <-]. Qed.

Lemma preserves_lift {A} n (r : result A) : preserves n (lift r) any.
Proof. now apply preserves_pure. Qed.

Lemma preserves_deref n r : preserves n (deref r) any.
Proof. now apply preserves_pure. Qed.

Lemma preserves_emit n o : preserves n (emit o) any.
Proof. intros s Hs. repeat split; auto. Qed.

Lemma firstn_app_le {A} n (l1 l2 : list A) :
  (n <= List.length l1)%nat -> firstn n (l1 ++ l2) = firstn n l1.
Proof.
  intros Hn. rewrite firstn_app.
  replace (n - List.length l1)%nat with 0%nat by lia.
  simpl. apply app_nil_r.
Qed.

Lemma firstn_store n r df h :
  (n <= r)%nat -> firstn n (store r df h) = firstn n h.
Proof.
  revert n r. induction h as [|d h IH]; intros n r Hn; [now destruct r|].
  destruct r as [|r]; simpl.
  - now replace n with 0%nat by lia.
  - destruct n as [|n]; simpl; [reflexivity|]. f_equal. apply IH. lia.
Qed.

Lemma length_store r df h : List.length (store r df h) = List.length h.
Proof.
  revert r. induction h as [|d h IH]; intros r; [now destruct r|].
  destruct r; simpl; [reflexivity|]. now rewrite IH.
Qed.

Lemma preserves_new n df : preserves n (new df) (fresh n).
Proof.
  intros s Hs. unfold new. simpl. repeat split.
  - now apply firstn_app_le.
  - rewrite length_app. lia.
  - unfold fresh. intros a [= <-]. exact Hs.
Qed.

Lemma preserves_assign n r df : fresh n r -> preserves n (assign r df) any.
Proof.
  intros Hr s Hs. unfold assign. simpl. repeat split.
  - now apply firstn_store.
  - now rewrite length_store.
Qed.

Ltac preserve :=
  repeat first
    [ apply preserves_deref | apply preserves_lift | apply preserves_emit
    | apply preserves_new | apply preserves_ret
    | apply preserves_assign; assumption
    | eapply preserves_bind; [ | intros ? ? ] ].

Lemma preserves_getitem_object n r l : preserves n (getitem_object r l) any.
Proof. unfold getitem_object. preserve. Qed.

Lemma preserves_getitem_datetime n r l : preserves n (getitem_datetime r l) any.
Proof. unfold getitem_datetime. preserve. Qed.

Lemma preserves_getitem_float n r l : preserves n (getitem_float r l) any.
Proof. unfold getitem_float. preserve. Qed.

Lemma preserves_setitem_object n r l col :
  fresh n r -> preserves n (setitem_object r l col) any.
Proof. intros Hr. unfold setitem_object. preserve. Qed.

Lemma preserves_setitem_float n r l col :
  fresh n r -> preserves n (setitem_float r l col) any.
Proof. intros Hr. unfold setitem_float. preserve. Qed.

Lemma preserves_getitem_mask n r mask : preserves n (getitem_mask r mask) (fresh n).
Proof. unfold getitem_mask. preserve. Qed.

Lemma preserves_copy n r : preserves n (copy r) (fresh n).
Proof. unfold copy. preserve. Qed.

Lemma preserves_sort_values n r k1 k2 : preserves n (sort_values r k1 k2) (fresh n).
Proof. unfold sort_values. preserve. Qed.

Lemma preserves_groupby_shift n r key col : preserves n (groupby_shift r key col) any.
Proof. unfold groupby_shift. preserve. Qed.

Lemma preserves_apply {B} n r (func : Row -> result B) : preserves n (apply r func) any.
Proof. unfold apply. preserve. Qed.

Lemma preserves_raise {A} n e (Q : A -> Prop) : preserves n (lift (Raise e)) Q.
Proof. intros s Hs. repeat split; auto. discriminate. Qed.

Lemma preserves_getitem_columns n r cols :
  preserves n (getitem_columns r cols) (fresh n).
Proof.
  unfold getitem_columns. eapply preserves_bind; [apply preserves_deref|].
  intros df _. destruct (flat_map (column_missing df) cols).
  - apply preserves_new.
  - apply preserves_raise.
Qed.

Ltac preserve_methods extra :=
  repeat first
    [ extra | apply preserves_getitem_object | apply preserves_getitem_datetime
    | apply preserves_getitem_float | apply preserves_getitem_mask
    | apply preserves_copy | apply preserves_sort_values
    | apply preserves_groupby_shift | apply preserves_apply
    | apply preserves_getitem_columns | apply preserves_emit
    | apply preserves_setitem_object; assumption
    | apply preserves_setitem_float; assumption
    | apply preserves_ret; assumption
    | eapply preserves_bind; [ | intros ? ? ] ].

(** [calculate_limit_price] writes its two columns to the sorted copy. *)
Lemma preserves_calculate_limit_price n r :
  preserves n (calculate_limit_price r) (fresh n).
Proof. unfold calculate_limit_price. preserve_methods fail. Qed.

(** [identify_limit_stocks] writes its two columns to the copy of the
    qualifying rows. *)
Lemma preserves_identify_limit_stocks n r :
  preserves n (identify_limit_stocks r) (fresh n).
Proof.
  unfold identify_limit_stocks.
  preserve_methods ltac:(apply preserves_calculate_limit_price).
Qed.

(* ------------------------------------------------------------------ *)
(** * The order of the sort keys *)

Lemma ascii_compare_refl c : Ascii.compare c c = Eq.
Proof. unfold Ascii.compare. apply N.compare_refl. Qed.

Lemma ascii_compare_lt_trans a b c :
  Ascii.compare a b = Lt -> Ascii.compare b c = Lt -> Ascii.compare a c = Lt.
Proof.
  unfold Ascii.compare. rewrite !N.compare_lt_iff. apply N.lt_trans.
Qed.

Lemma string_compare_refl s : String.compare s s = Eq.
Proof. induction s as [|c s IH]; simpl; [reflexivity|]. now rewrite ascii_compare_refl. Qed.

Lemma string_compare_eq s t : String.compare s t = Eq <-> s = t.
Proof.
  split; [apply String.compare_eq_iff|]. intros ->. apply string_compare_refl.
Qed.

Lemma string_compare_lt_trans s t u :
  String.compare s t = Lt -> String.compare t u = Lt -> String.compare s u = Lt.
Proof.
  revert t u. induction s as [|a s IH]; intros [|b t] [|c u]; simpl; try congruence.
  destruct (Ascii.compare a b) eqn:Hab; try discriminate;
    destruct (Ascii.compare b c) eqn:Hbc; try discriminate; intros H1 H2.
  - apply Ascii.compare_eq_iff in Hab, Hbc. subst.
    rewrite ascii_compare_refl. eauto.
  - apply Ascii.compare_eq_iff in Hab. subst. now rewrite Hbc.
  - apply Ascii.compare_eq_iff in Hbc. subst. now rewrite Hab.
  - now rewrite (ascii_compare_lt_trans _ _ _ Hab Hbc).
Qed.

Lemma key_le_total a b : key_le a b = false -> key_le b a = true.
Proof.
  unfold key_le. rewrite (String.compare_antisym (fst a) (fst b)).
  destruct (String.compare (fst b) (fst a)); simpl; try easy.
  rewrite Z.leb_gt, Z.leb_le. lia.
Qed.

Lemma key_le_trans a b c : key_le a b = true -> key_le b c = true -> key_le a c = true.
Proof.
  unfold key_le.
  destruct (String.compare (fst a) (fst b)) eqn:Hab; try discriminate;
    destruct (String.compare (fst b) (fst c)) eqn:Hbc; try discriminate; intros H1 H2.
  - apply string_compare_eq in Hab, Hbc. rewrite Hab, Hbc, string_compare_refl.
    rewrite Z.leb_le in *. lia.
  - apply string_compare_eq in Hab. now rewrite Hab, Hbc.
  - apply string_compare_eq in Hbc. now rewrite <- Hbc, Hab.
  - now rewrite (string_compare_lt_trans _ _ _ Hab Hbc).
Qed.


Section Sorted.
Variables (T : Type) (le : T -> T -> bool).
Hypothesis le_total : forall a b, le a b = false -> le b a = true.
Hypothesis le_trans : forall a b c, le a b = true -> le b c = true -> le a c = true.

Let sorted := StronglySorted (fun a b => le a b = true).

Lemma insert_sorted x l : sorted l -> sorted (insert le x l).
Proof.
  induction 1 as [|y l Hl IH Hy]; simpl.
  - repeat constructor.
  - destruct (le x y) eqn:Hxy.
    + constructor; [now constructor|].
      constructor; [assumption|].
      eapply Forall_impl; [|exact Hy]. intros z Hz. simpl in Hz. eauto.
    + constructor; [assumption|].
      eapply Permutation_Forall; [apply insert_perm|].
      constructor; auto.
Qed.

Lemma isort_sorted l : sorted (isort le l).
Proof.
  induction l as [|x l IH]; simpl; [constructor|]. now apply insert_sorted.
Qed.

(** An element not above the head of a sorted list goes in front. *)
Lemma insert_front x l :
  Forall (fun z => le x z = true) l -> insert le x l = x :: l.
Proof.
  destruct 1 as [|y l Hy _]; simpl; [reflexivity|]. now rewrite Hy.
Qed.

(** Dropping rows before or after the sort gives the same rows. *)
Lemma filter_insert (p : T -> bool) x l :
  sorted l ->
  filter p (insert le x l)
  = if p x then insert le x (filter p l) else filter p l.
Proof.
  induction 1 as [|y l Hl IH Hy]; simpl.
  - now destruct (p x).
  - destruct (le x y) eqn:Hxy; simpl.
    + destruct (p x) eqn:Hpx; [|reflexivity].
      symmetry. apply insert_front.
      assert (Hall : Forall (fun z => le x z = true) (y :: l)).
      { constructor; [assumption|].
        eapply Forall_impl; [|exact Hy]. intros z Hz. simpl in Hz. eauto. }
      change (if p y then y :: filter p l else filter p l) with (filter p (y :: l)).
      apply Forall_forall. intros z Hz. apply filter_In in Hz.
      rewrite Forall_forall in Hall. now apply Hall.
    + rewrite IH. destruct (p y), (p x); simpl; try reflexivity.
      now rewrite Hxy.
Qed.

Lemma filter_isort (p : T -> bool) l :
  filter p (isort le l) = isort le (filter p l).
Proof.
  induction l as [|x l IH]; simpl; [reflexivity|].
  rewrite filter_insert by apply isort_sorted.
  rewrite IH. now destruct (p x).
Qed.
End Sorted.

(* ------------------------------------------------------------------ *)
(** * The sorted panel and the previous close *)

Lemma bar_le_total a b : bar_le a b = false -> bar_le b a = true.
Proof. apply key_le_total. Qed.

Lemma bar_le_trans a b c : bar_le a b = true -> bar_le b c = true -> bar_le a c = true.
Proof. apply key_le_trans. Qed.

Lemma last_seen_cons_other seen k k' v :
  k' <> k -> last_seen ((k', v) :: seen) k = last_seen seen k.
Proof. intros Hk. simpl. now apply String.eqb_neq in Hk as ->. Qed.

(** Rows of instruments outside [p] do not change the previous close of
    the rows of instruments in [p]. *)
Lemma attach_filter (p : string -> bool) (l : list bar) :
  forall seen seen',
    (forall k, p k = true -> last_seen seen k = last_seen seen' k) ->
    attach_prev_close seen (filter (fun b => p (b_ts_code b)) l)
    = filter (fun bp => p (b_ts_code (fst bp))) (attach_prev_close seen' l).
Proof.
  induction l as [|b l IH]; intros seen seen' Hseen; simpl; [reflexivity|].
  destruct (p (b_ts_code b)) eqn:Hp; simpl.
  - rewrite Hseen by assumption. f_equal. apply IH.
    intros k Hk. simpl. destruct (String.eqb (b_ts_code b) k); auto.
  - apply IH. intros k Hk. rewrite last_seen_cons_other; [auto|].
    intros E. rewrite E in Hp. congruence.
Qed.

Lemma filter_map_comm {A B} (q : B -> bool) (f : A -> B) (l : list A) :
  filter q (map f l) = map f (filter (fun x => q (f x)) l).
Proof.
  induction l as [|x l IH]; simpl; [reflexivity|].
  destruct (q (f x)); simpl; now rewrite IH.
Qed.

(** The ST filter commutes with the computation of the limit prices: the
    previous close of a kept row is the same in the whole panel. *)
Lemma priced_of_kept (bs : list bar) :
  priced_of (filter kept bs) = filter (fun p => kept (p_bar p)) (priced_of bs).
Proof.
  unfold priced_of.
  rewrite <- (filter_isort _ bar_le bar_le_total bar_le_trans).
  rewrite filter_map_comm. f_equal.
  apply (attach_filter (fun k => negb (search false "ST" k))). reflexivity.
Qed.







Lemma ge_nan x : ge x PrimFloat.nan = false.
Proof. unfold ge. now rewrite leb_spec. Qed.


(** Panels in which no instrument has two bars: every previous close is
    absent. *)
Lemma attach_distinct (l : list bar) :
  forall seen,
    NoDup (map b_ts_code l) ->
    (forall b, In b l -> last_seen seen (b_ts_code b) = PrimFloat.nan) ->
    Forall (fun bp => snd bp = PrimFloat.nan) (attach_prev_close seen l).
Proof.
  induction l as [|b l IH]; intros seen Hnd Hseen; simpl; constructor.
  - simpl. apply Hseen. now left.
  - inversion Hnd as [|? ? Hnotin Hnd']; subst. apply IH; [assumption|].
    intros b' Hb'. rewrite last_seen_cons_other; [apply Hseen; now right|].
    intros Heq. apply Hnotin. rewrite Heq. now apply in_map.
Qed.

Lemma events_of_distinct (bs : list bar) :
  NoDup (map b_ts_code (filter kept bs)) -> events_of bs = [].
Proof.
  intros Hnd. unfold events_of, priced_of.
  assert (Hnan : Forall (fun bp => snd bp = PrimFloat.nan)
                   (attach_prev_close [] (isort bar_le (filter kept bs)))).
  { apply attach_distinct; [|reflexivity].
    eapply Permutation_NoDup; [|exact Hnd].
    apply Permutation_map, isort_perm. }
  induction Hnan as [|[b prev] l Hprev _ IH]; simpl; [reflexivity|].
  simpl in Hprev. subst prev.
  unfold limit_condition at 1. simpl. rewrite !ge_nan. simpl. exact IH.
Qed.

(** The output row by row: the specification's classification of each
    priced row, rows classified [NONE] left out. *)
Lemma events_reported (ps : list priced) :
  map event_of (filter limit_condition ps) = flat_map reported ps.
Proof.
  induction ps as [|p ps IH]; simpl; [reflexivity|].
  rewrite <- IH. clear IH.
  unfold reported, spec_limit_event, limit_condition, event_of.
  destruct (ge (b_close (p_bar p)) (p_limit_price p)) eqn:Hc,
           (ge (b_high (p_bar p)) (p_limit_price p)) eqn:Hh;
    simpl; rewrite ?Hc; reflexivity.
Qed.

(* ------------------------------------------------------------------ *)
(** * Rounding *)

Lemma round_half_even_nearest (num den : Z) :
  (0 < den)%Z ->
  (2 * Z.abs (num - round_half_even num den * den) <= den)%Z
  /\ ((2 * Z.abs (num - round_half_even num den * den) = den)%Z ->
      Z.even (round_half_even num den) = true).
Proof.
  intros Hden. unfold round_half_even.
  pose proof (Z.div_mod num den ltac:(lia)) as Hdm.
  pose proof (Z.mod_pos_bound num den Hden) as Hr.
  set (q := (num / den)%Z) in *. set (r := (num mod den)%Z) in *.
  destruct (2 * r ?= den)%Z eqn:Hc.
  - pose proof (proj1 (Z.compare_eq_iff _ _) Hc) as Heq.
    destruct (Z.even q) eqn:Hq.
    + split; [lia|auto].
    + split; [lia|]. intros _.
      replace (q + 1)%Z with (Z.succ q) by lia.
      rewrite Z.even_succ, <- Z.negb_even, Hq. reflexivity.
  - pose proof (proj1 (Z.compare_lt_iff _ _) Hc) as Hlt.
    split; [lia|]. intros He. exfalso. lia.
  - pose proof (proj1 (Z.compare_gt_iff _ _) Hc) as Hgt.
    split; [lia|]. intros He. exfalso. lia.
Qed.

(* ------------------------------------------------------------------ *)
(** * Boards *)

Ltac split_char x y :=
  let E := fresh "E" in
  destruct (ascii_dec x y) as [E|E];
  [ try discriminate E; try subst | try (exfalso; apply E; reflexivity) ].

Ltac split_chars :=
  repeat match goal with
         | |- context [ascii_dec ?x ?y] => split_char x y
         | H : context [ascii_dec ?x ?y] |- _ => split_char x y
         end.

Lemma get_stock_type_kcb code :
  prefix "688" code = true \/ prefix "689" code = true ->
  get_stock_type code = "kcb".
Proof.
  unfold get_stock_type, startswith. simpl existsb.
  intros [H|H]; rewrite H; [reflexivity|]. now rewrite orb_true_r.
Qed.

Lemma get_stock_type_cyb code :
  prefix "300" code = true -> get_stock_type code = "cyb".
Proof.
  unfold get_stock_type, startswith. simpl existsb. intros H. rewrite H.
  destruct code as [|a [|b [|c rest]]]; cbn -[ascii_dec] in *;
    try discriminate; split_chars; try discriminate; reflexivity.
Qed.

Lemma get_stock_type_bse code :
  existsb (fun p => prefix p code) NEEQ_prefixes = true ->
  get_stock_type code = "bse".
Proof.
  unfold get_stock_type, startswith, NEEQ_prefixes. intros H. rewrite H.
  destruct code as [|a [|b [|c rest]]]; cbn -[ascii_dec] in *;
    try discriminate; split_chars; try discriminate; reflexivity.
Qed.

Lemma get_stock_type_main code :
  prefix "688" code = false -> prefix "689" code = false ->
  prefix "300" code = false ->
  existsb (fun p => prefix p code) NEEQ_prefixes = false ->
  get_stock_type code = "main".
Proof.
  unfold get_stock_type, startswith, NEEQ_prefixes. intros H1 H2 H3 H4.
  cbn [existsb] in *. now rewrite H1, H2, H3, H4.
Qed.

Lemma get_stock_type_cases code :
  get_stock_type code = "kcb" \/ get_stock_type code = "cyb"
  \/ get_stock_type code = "bse" \/ get_stock_type code = "main".
Proof.
  unfold get_stock_type.
  repeat match goal with |- context [if ?c then _ else _] => destruct c end; auto.
Qed.

Lemma board_rate code :
  exists c, board_of (get_stock_type code) = Some c
            /\ limit_rate_of (get_stock_type code) = rate_for c.
Proof.
  destruct (get_stock_type_cases code) as [H|[H|[H|H]]]; rewrite H;
    [exists STAR|exists CHINEXT|exists NEEQ|exists MAIN]; split; reflexivity.
Qed.

(* ------------------------------------------------------------------ *)
(** * [main] *)

Section MainFacts.
Variable daily_statistics : DataFrame -> result (list (Z * nat * nat * nat)).

(** A panel that lacks a required column: [main] prints and returns. *)
Lemma main_incomplete data :
  forallb (fun col => existsb (String.eqb col) (columns data)) required_columns
  = false ->
  main daily_statistics (Loaded data) start
  = (Ok tt,
     {| heap := [data];
        stdout := [Print "成功读取数据，共{}条记录" [Z.of_nat (len data)];
                   Print "数据列不完整，请检查数据格式" []] |}).
Proof.
  intros Hcols. unfold main. rewrite Hcols. reflexivity.
Qed.

(** A panel of bars: [main] classifies it and writes both tables. *)
Lemma main_complete bs counts :
  daily_statistics (frame_of_events (events_of bs)) = Ok counts ->
  exists h,
    main daily_statistics (Loaded (frame_of_bars bs)) start
    = (Ok tt,
       {| heap := h;
          stdout :=
            [Print "成功读取数据，共{}条记录" [Z.of_nat (List.length bs)];
             Print "正在统计涨停股票..." [];
             ToCsvCounts "daily_limit_statistics.csv" counts;
             ToCsv "detailed_limit_stocks.csv" (frame_of_events (events_of bs));
             Print "统计完成！" [];
             Print "共发现 {} 次涨停事件" [Z.of_nat (List.length (events_of bs))];
             Print "封死涨停: {} 次"
               [Z.of_nat (count_occ string_dec (map e_limit_type (events_of bs))
                            "封死涨停")];
             Print "炸板: {} 次"
               [Z.of_nat (count_occ string_dec (map e_limit_type (events_of bs))
                            "炸板")];
             Print "结果已保存到 daily_limit_statistics.csv 和 detailed_limit_stocks.csv" []] |}).
Proof.
  intros Hstats. unfold main, start.
  destruct (identify_limit_stocks_run ([] ++ [frame_of_bars bs])
              [Print "成功读取数据，共{}条记录" [Z.of_nat (List.length bs)];
               Print "正在统计涨停股票..." []] 0 bs eq_refl) as [mid Hrun].
  eexists.
  step ltac:(reflexivity).
  cbn [heap stdout app List.length].
  step ltac:(reflexivity).
  change (forallb _ required_columns) with true. cbv iota. cbn [negb].
  step ltac:(reflexivity).
  cbn [heap stdout app List.length].
  replace (len (frame_of_bars bs)) with (List.length bs)
    by (unfold len; simpl; now rewrite length_map).
  step ltac:(exact Hrun).
  step ltac:(apply deref_run; apply nth_error_snoc).
  step ltac:(unfold lift; rewrite Hstats; reflexivity).
  rewrite !(bind_ok _ _ _ _ _ (emit_run _ _ _)).
  step ltac:(eapply (getitem_object_run _ _ _ _ _ (map e_limit_type (events_of bs)));
             [apply nth_error_snoc | reflexivity]).
  rewrite !(bind_ok _ _ _ _ _ (emit_run _ _ _)).
  rewrite emit_run. cbn [app].
  replace (len (frame_of_events (events_of bs))) with (List.length (events_of bs))
    by (unfold len; simpl; now rewrite length_map).
  reflexivity.
Qed.

(** A panel of bars on which the counting of lines 106-118 raises: [main]
    ends with that exception, having written no table. *)
Lemma main_counting_raises bs e :
  daily_statistics (frame_of_events (events_of bs)) = Raise e ->
  exists h,
    main daily_statistics (Loaded (frame_of_bars bs)) start
    = (Raise e,
       {| heap := h;
          stdout :=
            [Print "成功读取数据，共{}条记录" [Z.of_nat (List.length bs)];
             Print "正在统计涨停股票..." []] |}).
Proof.
  intros Hstats. unfold main, start.
  destruct (identify_limit_stocks_run ([] ++ [frame_of_bars bs])
              [Print "成功读取数据，共{}条记录" [Z.of_nat (List.length bs)];
               Print "正在统计涨停股票..." []] 0 bs eq_refl) as [mid Hrun].
  eexists.
  step ltac:(reflexivity).
  cbn [heap stdout app List.length].
  step ltac:(reflexivity).
  change (forallb _ required_columns) with true. cbv iota. cbn [negb].
  step ltac:(reflexivity).
  cbn [heap stdout app List.length].
  replace (len (frame_of_bars bs)) with (List.length bs)
    by (unfold len; simpl; now rewrite length_map).
  step ltac:(exact Hrun).
  step ltac:(apply deref_run; apply nth_error_snoc).
  erewrite bind_raise; [|unfold lift; rewrite Hstats; reflexivity].
  reflexivity.
Qed.
End MainFacts.

(* ------------------------------------------------------------------ *)
(** * The embedding at work *)

(** Python's [round]: ties on the exact value go to the even hundredth,
    values that are not ties go to the nearest one, the sign of zero is
    kept. *)
Example round_examples :
  (round 0.125 2, round 0.375 2, round 2.675 2, round (-0.001) 2,
   round (10 * (1 + 0.10)) 2, round (10.05 * (1 + 0.10)) 2)%float
  = (0.12, 0.38, 2.67, -0, 11, 11.06)%float.
Proof. vm_compute. reflexivity. Qed.

(** The ST filter looks for the two letters anywhere, in either case. *)
Example kept_examples :
  map (fun code => kept (mkbar code 1 1 1 1 1))
    ["ST0001"; "600st1"; "600000.SH"; "60S0T0"]
  = [false; false; true; true].
Proof. reflexivity. Qed.

(** The sort is by code point, then by date, and keeps equal rows in
    order. *)
Example argsort_example :
  argsort [("b", 2%Z); ("a", 5%Z); ("b", 1%Z); ("a", 5%Z); ("B", 9%Z)]
  = [4; 1; 3; 2; 0]%nat.
Proof. reflexivity. Qed.

Example shift_example :
  shift_in_groups [] ["a"; "b"; "a"; "a"; "b"] [1; 2; 3; 4; 5]%float
  = [PrimFloat.nan; PrimFloat.nan; 1; 3; 2]%float.
Proof. reflexivity. Qed.

(** [calculate_limit_price] leaves the panel it is given at reference 0
    and returns reference 1, the sorted copy with the two new columns. *)
Example calculate_limit_price_example :
  calculate_limit_price 0%nat {| heap := [frame_of_bars sealed_panel]; stdout := [] |}
  = (Ok 1%nat,
     {| heap := [frame_of_bars sealed_panel;
                 {| object_block := [(ts_code, ["600000.SH"; "600000.SH"])];
                    datetime_block := [(trade_date, [1%Z; 2%Z])];
                    float_block :=
                      [(open, [10; 10.5]); (close, [10; 11]); (high, [10; 11]);
                       (low, [10; 10.4]); (prev_close, [PrimFloat.nan; 10]);
                       (limit_price, [PrimFloat.nan; 11])]%float |}];
        stdout := [] |}).
Proof. vm_compute. reflexivity. Qed.

(** Without the column [low], [identify_limit_stocks] fails at the final
    selection of columns. *)
Example identify_limit_stocks_no_low :
  call identify_limit_stocks no_low_frame = Raise (KeyError ["low"]).
Proof. vm_compute. reflexivity. Qed.

(* ------------------------------------------------------------------ *)
(** * Order and shift of the priced rows *)

Lemma key_le_compare a b :
  key_le a b = true -> String.compare (fst a) (fst b) <> Gt.
Proof. unfold key_le. now destruct (String.compare (fst a) (fst b)). Qed.

(** In sorted rows, an instrument that differs from the one just before
    it has not occurred earlier. *)
Lemma sorted_codes_contiguous (a b c : bar) :
  bar_le a b = true -> bar_le b c = true ->
  b_ts_code b <> b_ts_code c -> b_ts_code a <> b_ts_code c.
Proof.
  intros Hab Hbc Hne Heq.
  apply key_le_compare in Hab. apply key_le_compare in Hbc. simpl in *.
  rewrite Heq in Hab. rewrite String.compare_antisym in Hab.
  destruct (String.compare (b_ts_code b) (b_ts_code c)) eqn:Hc;
    [apply string_compare_eq in Hc; contradiction|now apply Hab|now apply Hbc].
Qed.

Lemma shifted_attach (l : list bar) :
  forall seen prev,
    key_sorted (match prev with Some a => a :: l | None => l end) ->
    (forall b, In b l -> last_seen seen (b_ts_code b) = close_of_previous prev b) ->
    shifted_from prev (map price (attach_prev_close seen l)).
Proof.
  induction l as [|b l IH]; intros seen prev Hs Hseen; simpl; [exact I|].
  split; [apply Hseen; now left|].
  assert (Hs' : key_sorted (b :: l)).
  { destruct prev; [now inversion Hs|exact Hs]. }
  apply IH; [exact Hs'|].
  intros c Hc. simpl.
  destruct (String.eqb (b_ts_code b) (b_ts_code c)) eqn:Hbc; [reflexivity|].
  apply String.eqb_neq in Hbc.
  rewrite Hseen by now right.
  destruct prev as [a|]; [|reflexivity]. simpl.
  destruct (String.eqb (b_ts_code a) (b_ts_code c)) eqn:Hac; [|reflexivity].
  apply String.eqb_eq in Hac. exfalso.
  inversion Hs as [|? ? _ Ha]; subst. inversion Hs' as [|? ? _ Hb]; subst.
  rewrite Forall_forall in Ha, Hb.
  apply (sorted_codes_contiguous a b c); auto. apply Ha. now left.
Qed.

Lemma key_le_refl a : key_le a a = true.
Proof. unfold key_le. rewrite string_compare_refl. apply Z.leb_refl. Qed.

(** Sorting rows that all have the same key leaves them as they are. *)
Lemma isort_same_key (k : string * Z) (l : list bar) :
  Forall (fun b => bar_key b = k) l -> isort bar_le l = l.
Proof.
  induction 1 as [|x l Hx Hl IH]; simpl; [reflexivity|].
  rewrite IH. destruct l as [|y l]; [reflexivity|]. simpl.
  inversion Hl as [|? ? Hy _]; subst.
  unfold bar_le at 1. rewrite Hy. now rewrite key_le_refl.
Qed.

Lemma key_eqb_eq (a b : string * Z) :
  (String.eqb (fst a) (fst b) && Z.eqb (snd a) (snd b)) = true <-> a = b.
Proof.
  rewrite andb_true_iff, String.eqb_eq, Z.eqb_eq.
  destruct a, b; simpl. split; [intros [-> ->]; reflexivity|intros [= -> ->]; auto].
Qed.

(** The rows [calculate_limit_price] returns are the rows of the panel in
    sorted order. *)
Lemma priced_of_bars (bs : list bar) : map p_bar (priced_of bs) = isort bar_le bs.
Proof.
  unfold priced_of. rewrite map_map. simpl.
  change (fun x : bar * float => fst x) with (@fst bar float).
  apply map_fst_attach.
Qed.

Lemma priced_of_permutation (bs : list bar) : Permutation (map p_bar (priced_of bs)) bs.
Proof. rewrite priced_of_bars. symmetry. apply isort_perm. Qed.

Lemma priced_of_sorted (bs : list bar) : key_sorted (map p_bar (priced_of bs)).
Proof.
  rewrite priced_of_bars. apply isort_sorted; [apply bar_le_total|apply bar_le_trans].
Qed.

Lemma priced_of_shifted (bs : list bar) : shifted_from None (priced_of bs).
Proof.
  unfold priced_of. apply shifted_attach.
  - apply isort_sorted; [apply bar_le_total|apply bar_le_trans].
  - reflexivity.
Qed.

(** Rows with the same instrument and date keep the order of the panel. *)
Lemma priced_of_stable (bs : list bar) (k : string * Z) :
  filter (has_key k) (map p_bar (priced_of bs)) = filter (has_key k) bs.
Proof.
  rewrite priced_of_bars, (filter_isort _ bar_le bar_le_total bar_le_trans).
  apply (isort_same_key k). apply Forall_forall. intros b Hb.
  apply filter_In in Hb as [_ Hb]. now apply (key_eqb_eq (bar_key b) k) in Hb.
Qed.

(** The exclusion of line 50 looks at the instrument only. *)
Lemma kept_by_code (a b : bar) : b_ts_code a = b_ts_code b -> kept a = kept b.
Proof. unfold kept. now intros ->. Qed.

(** ** Rounding to hundredths *)

(** At most one integer is nearest, ties going to the even one. *)
Lemma nearest_hundredths_unique m e n n' :
  nearest_hundredths m e n -> nearest_hundredths m e n' -> n = n'.
Proof.
  unfold nearest_hundredths. destruct e as [|k|k]; try congruence.
  assert (HD : (0 < 2 ^ Zpos k)%Z) by (apply Z.pow_pos_nonneg; lia).
  set (D := (2 ^ Zpos k)%Z) in *. set (a := (Zpos m * 100)%Z).
  intros [H1 E1] [H2 E2].
  destruct (Z.lt_trichotomy n n') as [Hlt|[->|Hgt]]; [|reflexivity|]; exfalso.
  - assert (n' = n + 1)%Z by nia. subst n'.
    assert (T1 : (2 * Z.abs (a - n * D) = D)%Z) by nia.
    assert (T2 : (2 * Z.abs (a - (n + 1) * D) = D)%Z) by nia.
    specialize (E1 T1). specialize (E2 T2).
    rewrite Z.even_add in E2. rewrite E1 in E2. discriminate.
  - assert (n = n' + 1)%Z by nia. subst n.
    assert (T1 : (2 * Z.abs (a - n' * D) = D)%Z) by nia.
    assert (T2 : (2 * Z.abs (a - (n' + 1) * D) = D)%Z) by nia.
    specialize (E1 T2). specialize (E2 T1).
    rewrite Z.even_add in E1. rewrite E2 in E1. discriminate.
Qed.

Lemma round_rounded (y : float) : rounded_to_hundredths y (round y 2).
Proof.
  unfold rounded_to_hundredths, round.
  destruct (Prim2SF y) as [| | |s m e]; try reflexivity.
  exists (scaled_nearest m e 2). split; [|reflexivity].
  unfold nearest_hundredths, scaled_nearest.
  change (10 ^ Z.of_nat 2)%Z with 100%Z.
  destruct e as [|k|k]; try reflexivity.
  apply round_half_even_nearest. apply Z.pow_pos_nonneg; lia.
Qed.

(* ------------------------------------------------------------------ *)
(** * The claims *)

(** C1.  A bar is reported exactly when its high or its close reaches the
    limit price computed for it; a reported bar is labelled 封死涨停 (sealed)
    when its close reaches the limit price and 炸板 (broken) otherwise; the
    other bars (classification NONE) are not reported.  With a previous
    close of 10.00 on the main board the limit price is 11.00: a close of
    11.00 is sealed, a high of 11.00 with a close of 10.95 is broken, a high
    of 10.99 is not an event. *)
Theorem limit_event_classification :
  forall bs : list bar,
    (exists ps,
        priced_rows (filter kept bs) = Ok ps
        /\ limit_stocks bs = Ok (flat_map reported ps))
    /\ limit_stocks sealed_panel
       = Ok [{| e_bar := mkbar "600000.SH" 2 10.5 11 11 10.4;
                e_limit_price := 11; e_limit_type := "封死涨停" |}]
    /\ limit_stocks broken_panel
       = Ok [{| e_bar := mkbar "600000.SH" 2 10.5 10.95 11 10.4;
                e_limit_price := 11; e_limit_type := "炸板" |}]
    /\ limit_stocks quiet_panel = Ok [].
Proof.
  intros bs. split; [|repeat split; vm_compute; reflexivity].
  exists (priced_of (filter kept bs)). split.
  - apply priced_rows_eq.
  - rewrite limit_stocks_eq. unfold events_of. now rewrite events_reported.
Qed.

(** C2, at a decimal tie.  The comment of line 38 asks for the product
    rounded to two decimals half up (四舍五入), and the claim for one of
    half-to-even and half-away-from-zero: under each of the three, a
    main-board previous close of 1.45 has the limit price
    1.45 * 1.10 = 1.595 rounded, that is 1.60.  The program multiplies in
    binary64 and rounds the binary product, which lies just below 1.595:
    its limit price is 1.59.  The bar of the next day, whose high is 1.59
    and whose close is 1.58, is then reported as 炸板, although it is no
    event at a limit price of 1.60. *)
Theorem limit_price_misses_decimal_tie :
  priced_rows tie_panel
  = Ok [{| p_bar := mkbar "600000.SH" 1 1.45 1.45 1.45 1.45;
           p_prev_close := PrimFloat.nan; p_limit_price := PrimFloat.nan |};
        {| p_bar := mkbar "600000.SH" 2 1.5 1.58 1.59 1.5;
           p_prev_close := 1.45; p_limit_price := 1.59 |}]
  /\ decimal_limit round_half_even 145 10 = 160%Z
  /\ decimal_limit round_half_up 145 10 = 160%Z
  /\ decimal_to_float false 160 2 = 1.6%float
  /\ PrimFloat.ltb 1.59 1.6 = true
  /\ limit_stocks tie_panel
     = Ok [{| e_bar := mkbar "600000.SH" 2 1.5 1.58 1.59 1.5;
              e_limit_price := 1.59; e_limit_type := "炸板" |}]
  /\ spec_limit_event 1.59 1.58 1.6 = NONE.
Proof. repeat split; vm_compute; reflexivity. Qed.

(** C3.  The board of an instrument code is a total function of its
    prefix: 688 and 689 give kcb (STAR) with rate 0.20, 300 gives cyb
    (CHINEXT) with rate 0.20, the fifteen listed prefixes give bse (NEEQ)
    with rate 0.30, and every other code gives main (MAIN) with rate 0.10;
    the answer is always one of the four, with its rate. *)
Theorem board_classification :
  forall code : string,
    ((prefix "688" code = true \/ prefix "689" code = true ->
      get_stock_type code = "kcb"
      /\ limit_rate_of (get_stock_type code) = 0.20%float)
     /\ (prefix "300" code = true ->
         get_stock_type code = "cyb"
         /\ limit_rate_of (get_stock_type code) = 0.20%float)
     /\ (existsb (fun p => prefix p code) NEEQ_prefixes = true ->
         get_stock_type code = "bse"
         /\ limit_rate_of (get_stock_type code) = 0.30%float)
     /\ (prefix "688" code = false -> prefix "689" code = false ->
         prefix "300" code = false ->
         existsb (fun p => prefix p code) NEEQ_prefixes = false ->
         get_stock_type code = "main"
         /\ limit_rate_of (get_stock_type code) = 0.10%float))
    /\ exists c, board_of (get_stock_type code) = Some c
                 /\ limit_rate_of (get_stock_type code) = rate_for c.
Proof.
  intros code. split; [|apply board_rate].
  repeat split.
  - now apply get_stock_type_kcb.
  - now rewrite get_stock_type_kcb.
  - now apply get_stock_type_cyb.
  - now rewrite get_stock_type_cyb.
  - now apply get_stock_type_bse.
  - now rewrite get_stock_type_bse.
  - now apply get_stock_type_main.
  - now rewrite get_stock_type_main.
Qed.

(** C4, as the program behaves.  A panel with two bars of one instrument
    on one date is not rejected.  It is classified like any other: the rows
    of the kept bars are put in (instrument, date) order, rows with the same
    instrument and date staying in the order of the panel; each row takes as
    previous close the close of the row just before it when that row is of
    the same instrument, a row of the same date included, and NaN
    otherwise; and the rows whose high or close reaches the limit price are
    reported. *)
Theorem duplicate_dates_are_shifted_over :
  forall bs : list bar,
    has_duplicate_key bs = true ->
    exists ps,
      priced_rows (filter kept bs) = Ok ps
      /\ Permutation (map p_bar ps) (filter kept bs)
      /\ key_sorted (map p_bar ps)
      /\ (forall k, filter (has_key k) (map p_bar ps)
                    = filter (has_key k) (filter kept bs))
      /\ shifted_from None ps
      /\ limit_stocks bs = Ok (flat_map reported ps).
Proof.
  intros bs _. exists (priced_of (filter kept bs)).
  split; [apply priced_rows_eq|].
  split; [apply priced_of_permutation|].
  split; [apply priced_of_sorted|].
  split; [intros k; apply priced_of_stable|].
  split; [apply priced_of_shifted|].
  rewrite limit_stocks_eq. unfold events_of. now rewrite events_reported.
Qed.

(** The panel with a duplicated date, as an instance. *)
Lemma duplicate_dates_are_shifted_over_witness :
  has_duplicate_key duplicate_panel = true
  /\ exists ps,
      priced_rows (filter kept duplicate_panel) = Ok ps
      /\ Permutation (map p_bar ps) (filter kept duplicate_panel)
      /\ key_sorted (map p_bar ps)
      /\ (forall k, filter (has_key k) (map p_bar ps)
                    = filter (has_key k) (filter kept duplicate_panel))
      /\ shifted_from None ps
      /\ limit_stocks duplicate_panel = Ok (flat_map reported ps).
Proof.
  split; [reflexivity|].
  apply (duplicate_dates_are_shifted_over duplicate_panel). reflexivity.
Defined.

(** C4, as stated, fails: the panel with a duplicated date is answered
    with an event, not with an error. *)
Lemma duplicate_dates_not_rejected :
  has_duplicate_key duplicate_panel = true
  /\ limit_stocks duplicate_panel
     = Ok [{| e_bar := mkbar "600000.SH" 5 10.5 11 11 10.4;
              e_limit_price := 11; e_limit_type := "封死涨停" |}]
  /\ ~ (exists e, limit_stocks duplicate_panel = Raise e).
Proof.
  split; [reflexivity|]. split; [vm_compute; reflexivity|].
  intros [e He]. vm_compute in He. discriminate He.
Qed.

(** C5, as the program behaves.  The output holds one row for every kept
    (non-excluded) bar whose high or close reaches its limit price, and no
    row for the others; its columns are ts_code, trade_date, open, close,
    high, low, 涨停价 and limit_type, the first six carrying the fields of the
    bar. *)
Theorem one_row_per_event :
  forall bs : list bar,
    exists ps df,
      priced_rows (filter kept bs) = Ok ps
      /\ Permutation (map p_bar ps) (filter kept bs)
      /\ call identify_limit_stocks (frame_of_bars bs) = Ok df
      /\ Permutation (columns df) (map column_name result_columns)
      /\ mapM event_of_row (iterrows df)
         = Ok (map event_of (filter limit_condition ps)).
Proof.
  intros bs.
  exists (priced_of (filter kept bs)), (frame_of_events (events_of bs)).
  split; [apply priced_rows_eq|]. split.
  { unfold priced_of. rewrite map_map. simpl.
    change (fun x : bar * float => fst x) with (@fst bar float).
    rewrite map_fst_attach. symmetry. apply isort_perm. }
  split.
  { unfold call.
    destruct (identify_limit_stocks_run [frame_of_bars bs] [] 0 bs eq_refl) as [mid ->].
    cbn [heap]. now rewrite nth_error_snoc. }
  split; [|apply decode_events].
  change (Permutation ("ts_code" :: "limit_type" :: ["trade_date"; "open"; "close"; "high";
                                                     "low"; "涨停价"])
            ("ts_code" :: ["trade_date"; "open"; "close"; "high"; "low"; "涨停价"]
             ++ ["limit_type"])).
  constructor. apply Permutation_cons_append.
Qed.

(** C5, as stated, fails: a panel of one kept bar, which has no limit
    price, gives an output without rows. *)
Lemma none_bars_are_dropped :
  filter kept lone_panel = lone_panel
  /\ limit_stocks lone_panel = Ok []
  /\ ~ (exists es, limit_stocks lone_panel = Ok es
                   /\ List.length es = List.length (filter kept lone_panel)).
Proof.
  split; [reflexivity|]. split; [vm_compute; reflexivity|].
  intros (es & Hes & Hlen). vm_compute in Hes. injection Hes as <-. discriminate Hlen.
Qed.

(** C6 at a panel on which it fails: the whole panel has a sealed event on
    day 2, and the query for day 2 returns no row. *)
Theorem analyze_specific_date_misses_events :
  limit_stocks sealed_panel
  = Ok [{| e_bar := mkbar "600000.SH" 2 10.5 11 11 10.4;
           e_limit_price := 11; e_limit_type := "封死涨停" |}]
  /\ limit_stocks_on sealed_panel 2 = Ok [].
Proof. split; vm_compute; reflexivity. Qed.

(** The query for one date classifies the bars of that date alone; when no
    instrument has two bars on the date, no bar has a previous close and
    the answer is empty, whatever the prices. *)
Lemma analyze_specific_date_empty (bs : list bar) (d : Z) :
  NoDup (map b_ts_code (filter kept (filter (fun b => Z.eqb (b_trade_date b) d) bs))) ->
  limit_stocks_on bs d = Ok [].
Proof.
  intros Hnd. rewrite limit_stocks_on_eq. now rewrite events_of_distinct.
Qed.

(** C7.  A bar whose code matches the ST filter is never in the output.
    The exclusion looks at the instrument only, so no instrument has both
    an excluded and a kept bar.  Over the whole panel, excluded rows
    included, the rows are put in (instrument, date) order and each takes as
    previous close the close of the row just before it when that row is of
    the same instrument; the rows the program prices after the exclusion
    are exactly the kept rows of that frame, with the same previous close,
    and the output is made of those among them whose high or close reaches
    the limit price. *)
Theorem excluded_rows_are_never_reported :
  forall bs : list bar,
    (forall a b, In a bs -> In b bs -> b_ts_code a = b_ts_code b -> kept a = kept b)
    /\ exists ps es,
        priced_rows bs = Ok ps
        /\ Permutation (map p_bar ps) bs
        /\ key_sorted (map p_bar ps)
        /\ shifted_from None ps
        /\ priced_rows (filter kept bs) = Ok (filter (fun p => kept (p_bar p)) ps)
        /\ limit_stocks bs = Ok es
        /\ es = flat_map reported (filter (fun p => kept (p_bar p)) ps)
        /\ Forall (fun e => search false "ST" (b_ts_code (e_bar e)) = false) es.
Proof.
  intros bs. split; [intros a b _ _; apply kept_by_code|].
  exists (priced_of bs), (events_of bs).
  split; [apply priced_rows_eq|].
  split; [apply priced_of_permutation|].
  split; [apply priced_of_sorted|].
  split; [apply priced_of_shifted|].
  split; [rewrite priced_rows_eq; now rewrite priced_of_kept|].
  split; [apply limit_stocks_eq|].
  assert (He : events_of bs
               = map event_of (filter limit_condition
                                 (filter (fun p => kept (p_bar p)) (priced_of bs)))).
  { unfold events_of. now rewrite priced_of_kept. }
  split; [rewrite He; apply events_reported|].
  rewrite He. apply Forall_forall. intros e Hin.
  apply in_map_iff in Hin as (p & <- & Hp).
  apply filter_In in Hp as (Hp & _). apply filter_In in Hp as (_ & Hk).
  unfold kept in Hk. simpl. now apply negb_true_iff in Hk.
Qed.



(** C9, as the program behaves.  [main] refuses a frame that lacks one of
    the six required columns: it prints a message and writes no table.  The
    sign of a price is not checked: every panel of bars with float prices,
    non-positive ones included, is classified by the ordinary rule; when the
    counting of lines 106-118 returns, [main] writes the table of counts and
    then the table of events, and when it raises, [main] ends with that
    exception and has written nothing. *)
Theorem only_missing_columns_are_refused :
  forall daily_statistics : DataFrame -> result (list (Z * nat * nat * nat)),
    (forall data,
        forallb (fun col => existsb (String.eqb col) (columns data)) required_columns
        = false ->
        main daily_statistics (Loaded data) start
        = (Ok tt,
           {| heap := [data];
              stdout := [Print "成功读取数据，共{}条记录" [Z.of_nat (len data)];
                         Print "数据列不完整，请检查数据格式" []] |}))
    /\ (forall bs : list bar,
           exists ps,
             priced_rows (filter kept bs) = Ok ps
             /\ limit_stocks bs = Ok (flat_map reported ps)
             /\ (forall counts,
                    daily_statistics (frame_of_events (flat_map reported ps)) = Ok counts ->
                    fst (main daily_statistics (Loaded (frame_of_bars bs)) start) = Ok tt
                    /\ csv_writes
                         (stdout (snd (main daily_statistics (Loaded (frame_of_bars bs))
                                         start)))
                       = [ToCsvCounts "daily_limit_statistics.csv" counts;
                          ToCsv "detailed_limit_stocks.csv"
                            (frame_of_events (flat_map reported ps))])
             /\ (forall e,
                    daily_statistics (frame_of_events (flat_map reported ps)) = Raise e ->
                    fst (main daily_statistics (Loaded (frame_of_bars bs)) start) = Raise e
                    /\ csv_writes
                         (stdout (snd (main daily_statistics (Loaded (frame_of_bars bs))
                                         start)))
                       = [])).
Proof.
  intros daily_statistics. split; [apply main_incomplete|].
  intros bs. exists (priced_of (filter kept bs)).
  assert (He : flat_map reported (priced_of (filter kept bs)) = events_of bs).
  { unfold events_of. now rewrite events_reported. }
  rewrite He.
  split; [apply priced_rows_eq|]. split; [apply limit_stocks_eq|]. split.
  - intros counts Hc.
    destruct (main_complete daily_statistics bs counts Hc) as [h ->].
    split; reflexivity.
  - intros e Hc.
    destruct (main_counting_raises daily_statistics bs e Hc) as [h ->].
    split; reflexivity.
Qed.

(** C9, as stated, fails: a panel with negative prices is classified, and
    reports a sealed limit at a limit price of -11. *)
Lemma non_positive_prices_not_rejected :
  Forall (fun b => has_non_positive_price b = true) negative_panel
  /\ limit_stocks negative_panel
     = Ok [{| e_bar := mkbar "600000.SH" 2 (-11) (-11) (-11) (-11);
              e_limit_price := (-11); e_limit_type := "封死涨停" |}]
  /\ ~ (exists e, limit_stocks negative_panel = Raise e).
Proof.
  split; [repeat constructor|]. split; [vm_compute; reflexivity|].
  intros [e He]. vm_compute in He. discriminate He.
Qed.

(** A panel without the column [low] is refused by [main]. *)
Lemma main_refuses_no_low daily_statistics :
  stdout (snd (main daily_statistics (Loaded no_low_frame) start))
  = [Print "成功读取数据，共{}条记录" [2%Z]; Print "数据列不完整，请检查数据格式" []].
Proof. reflexivity. Qed.

(** C10.  Neither [identify_limit_stocks] nor [calculate_limit_price]
    changes a frame that existed when it was called, whether it returns or
    raises: the store after the call is the store before it followed by the
    frames the call allocated.  In particular the caller's panel is the
    same frame afterwards. *)
Theorem input_panel_is_not_mutated :
  forall (s : state) (r : ref),
    (exists added, heap (snd (identify_limit_stocks r s)) = heap s ++ added)
    /\ (exists added, heap (snd (calculate_limit_price r s)) = heap s ++ added)
    /\ nth_error (heap (snd (identify_limit_stocks r s))) r = nth_error (heap s) r
    /\ nth_error (heap (snd (calculate_limit_price r s))) r = nth_error (heap s) r.
Proof.
  intros s r.
  destruct (preserves_identify_limit_stocks (List.length (heap s)) r s (le_n _))
    as (Hi & _ & _).
  destruct (preserves_calculate_limit_price (List.length (heap s)) r s (le_n _))
    as (Hc & _ & _).
  rewrite firstn_all in Hi, Hc.
  assert (Hi' : heap (snd (identify_limit_stocks r s))
                = heap s ++ skipn (List.length (heap s))
                             (heap (snd (identify_limit_stocks r s)))).
  { rewrite <- Hi at 1. symmetry. apply firstn_skipn. }
  assert (Hc' : heap (snd (calculate_limit_price r s))
                = heap s ++ skipn (List.length (heap s))
                             (heap (snd (calculate_limit_price r s)))).
  { rewrite <- Hc at 1. symmetry. apply firstn_skipn. }
  split; [eexists; exact Hi'|]. split; [eexists; exact Hc'|].
  destruct (Nat.lt_ge_cases r (List.length (heap s))) as [Hlt|Hge].
  - split; [rewrite Hi'|rewrite Hc']; now apply nth_error_app1.
  - apply nth_error_None in Hge.
    assert (Hd : deref r s = (Raise InvalidRef, s)).
    { unfold deref. now rewrite Hge. }
    split.
    + unfold identify_limit_stocks, getitem_object, bind. now rewrite Hd.
    + unfold calculate_limit_price, sort_values, bind. now rewrite Hd.
Qed.

(* ------------------------------------------------------------------ *)
(** * Further properties of the program *)

(** X1.  The frame [calculate_limit_price] returns holds every row of the
    panel once, in (instrument, date) order, and the [prev_close] of a row
    is the close of the row just above it when that row is of the same
    instrument, NaN otherwise. *)
Theorem calculate_limit_price_sorts_and_shifts :
  forall bs : list bar,
    exists ps,
      priced_rows bs = Ok ps
      /\ Permutation (map p_bar ps) bs
      /\ key_sorted (map p_bar ps)
      /\ shifted_from None ps.
Proof.
  intros bs. exists (priced_of bs). split; [apply priced_rows_eq|].
  assert (Hbars : map p_bar (priced_of bs) = isort bar_le bs).
  { unfold priced_of. rewrite map_map. simpl.
    change (fun x : bar * float => fst x) with (@fst bar float).
    apply map_fst_attach. }
  rewrite Hbars. split; [symmetry; apply isort_perm|].
  split; [apply isort_sorted; [apply bar_le_total|apply bar_le_trans]|].
  unfold priced_of. apply shifted_attach.
  - apply isort_sorted; [apply bar_le_total|apply bar_le_trans].
  - reflexivity.
Qed.

Lemma key_le_antisym a b : key_le a b = true -> key_le b a = true -> a = b.
Proof.
  unfold key_le. rewrite (String.compare_antisym (fst a) (fst b)).
  destruct (String.compare (fst b) (fst a)) eqn:Hc; simpl; try discriminate.
  apply string_compare_eq in Hc. rewrite !Z.leb_le. intros H1 H2.
  destruct a, b; simpl in *. f_equal; [congruence|lia].
Qed.

Lemma NoDup_map_injective {A B} (f : A -> B) (l : list A) a b :
  NoDup (map f l) -> In a l -> In b l -> f a = f b -> a = b.
Proof.
  induction l as [|x l IH]; simpl; intros Hnd Ha Hb Hf; [contradiction|].
  inversion Hnd as [|? ? Hx Hnd']; subst.
  destruct Ha as [->|Ha], Hb as [->|Hb]; auto.
  - exfalso. apply Hx. rewrite Hf. now apply in_map.
  - exfalso. apply Hx. rewrite <- Hf. now apply in_map.
Qed.

(** Two sorted lists with the same elements are the same list, when no two
    elements are equivalent in the order. *)
Lemma sorted_unique {T} (le : T -> T -> bool) (l1 : list T) :
  forall l2,
    StronglySorted (fun a b => le a b = true) l1 ->
    StronglySorted (fun a b => le a b = true) l2 ->
    Permutation l1 l2 ->
    (forall a b, In a l1 -> In b l1 -> le a b = true -> le b a = true -> a = b) ->
    l1 = l2.
Proof.
  induction l1 as [|x l1 IH]; intros l2 H1 H2 HP Hanti.
  - apply Permutation_nil in HP. now subst.
  - destruct l2 as [|y l2]; [symmetry in HP; now apply Permutation_nil_cons in HP|].
    inversion H1 as [|? ? H1' Hx]; subst. inversion H2 as [|? ? H2' Hy]; subst.
    rewrite Forall_forall in Hx, Hy.
    assert (Hxy : x = y).
    { assert (Hxin : In x (y :: l2)) by (eapply Permutation_in; [exact HP|now left]).
      assert (Hyin : In y (x :: l1))
        by (eapply Permutation_in; [symmetry; exact HP|now left]).
      destruct Hxin as [->|Hxin]; [reflexivity|].
      destruct Hyin as [->|Hyin]; [reflexivity|].
      apply Hanti; [now left|now right|now apply Hx|now apply Hy]. }
    subst y. f_equal. apply Permutation_cons_inv in HP.
    apply IH; auto. intros a b Ha Hb. apply Hanti; now right.
Qed.

Lemma isort_permutation_unique (bs bs' : list bar) :
  Permutation bs bs' -> NoDup (map bar_key bs) ->
  isort bar_le bs = isort bar_le bs'.
Proof.
  intros HP Hnd. apply (sorted_unique bar_le).
  - apply isort_sorted; [apply bar_le_total|apply bar_le_trans].
  - apply isort_sorted; [apply bar_le_total|apply bar_le_trans].
  - rewrite <- (isort_perm _ bar_le bs), <- (isort_perm _ bar_le bs'). exact HP.
  - intros a b Ha Hb Hab Hba.
    apply (NoDup_map_injective bar_key bs); auto.
    + eapply Permutation_in; [symmetry; apply isort_perm|exact Ha].
    + eapply Permutation_in; [symmetry; apply isort_perm|exact Hb].
    + now apply key_le_antisym.
Qed.

(** X2.  When no two bars of the panel share instrument and date, the order
    of the rows of the panel does not matter: a panel with the same rows in
    another order gets the same limit prices and the same events, in the
    same order. *)
Theorem row_order_does_not_matter :
  forall bs bs' : list bar,
    Permutation bs bs' ->
    NoDup (map bar_key bs) ->
    priced_rows bs = priced_rows bs' /\ limit_stocks bs = limit_stocks bs'.
Proof.
  intros bs bs' HP Hnd.
  rewrite !priced_rows_eq, !limit_stocks_eq. unfold events_of.
  rewrite !priced_of_kept. unfold priced_of.
  now rewrite (isort_permutation_unique bs bs' HP Hnd).
Qed.

(** The sealed panel and its rows in reverse order. *)
Lemma row_order_does_not_matter_witness :
  Permutation sealed_panel (rev sealed_panel)
  /\ NoDup (map bar_key sealed_panel)
  /\ priced_rows sealed_panel = priced_rows (rev sealed_panel)
  /\ limit_stocks sealed_panel = limit_stocks (rev sealed_panel).
Proof.
  assert (HP : Permutation sealed_panel (rev sealed_panel)) by apply Permutation_rev.
  assert (Hnd : NoDup (map bar_key sealed_panel)).
  { repeat constructor; simpl; intuition discriminate. }
  split; [exact HP|]. split; [exact Hnd|].
  exact (row_order_does_not_matter sealed_panel (rev sealed_panel) HP Hnd).
Defined.

(** An ordered comparison that holds has no NaN on either side. *)
Lemma SFeqb_refl_not_nan x : SFeqb x x = false -> x = S754_nan.
Proof.
  unfold SFeqb. destruct x as [s|s| |s m e]; simpl; try discriminate; auto.
  - now destruct s.
  - destruct s; rewrite Z.compare_refl, Pos.compare_cont_refl; discriminate.
Qed.

Lemma isna_spec x : isna x = true -> Prim2SF x = S754_nan.
Proof.
  unfold isna, PrimFloat.is_nan. rewrite FloatAxioms.eqb_spec. intros H.
  apply negb_true_iff in H. now apply SFeqb_refl_not_nan.
Qed.

Lemma ge_not_nan a b : ge a b = true -> isna a = false /\ isna b = false.
Proof.
  unfold ge. rewrite leb_spec. intros H. split.
  - destruct (isna a) eqn:Ha; [|reflexivity].
    apply isna_spec in Ha. rewrite Ha in H.
    unfold SFleb in H. now destruct (Prim2SF b).
  - destruct (isna b) eqn:Hb; [|reflexivity].
    apply isna_spec in Hb. now rewrite Hb in H.
Qed.

(** X3.  Every row [identify_limit_stocks] returns has a limit price
    (涨停价) that is a number, never NaN, reached by the high or by the close
    of the row; the row is labelled 封死涨停 exactly when its close reaches
    the limit price, and 炸板 exactly when only its high does. *)
Theorem reported_rows_reach_their_limit :
  forall bs : list bar,
    exists es,
      limit_stocks bs = Ok es
      /\ Forall (fun e =>
                   isna (e_limit_price e) = false
                   /\ (ge (b_high (e_bar e)) (e_limit_price e) = true
                       \/ ge (b_close (e_bar e)) (e_limit_price e) = true)
                   /\ (e_limit_type e = "封死涨停"
                       <-> ge (b_close (e_bar e)) (e_limit_price e) = true)
                   /\ (e_limit_type e = "炸板"
                       <-> ge (b_close (e_bar e)) (e_limit_price e) = false
                           /\ ge (b_high (e_bar e)) (e_limit_price e) = true)) es.
Proof.
  intros bs. exists (events_of bs). split; [apply limit_stocks_eq|].
  unfold events_of. apply Forall_forall. intros e He.
  apply in_map_iff in He as (p & <- & Hp). apply filter_In in Hp as (_ & Hc).
  unfold limit_condition in Hc. unfold event_of. simpl.
  apply orb_true_iff in Hc.
  split; [destruct Hc as [Hc|Hc]; now apply ge_not_nan in Hc|].
  split; [exact Hc|].
  destruct (ge (b_close (p_bar p)) (p_limit_price p)) eqn:Hclose.
  - intuition (try discriminate; auto).
  - destruct Hc as [Hh|?]; [|discriminate]. intuition (try discriminate; auto).
Qed.

(** X4.  Every row of the output carries one of the two labels, so the two
    counts that [main] and [analyze_specific_date] print add up to the
    number of rows. *)
Theorem label_counts_add_up :
  forall bs : list bar,
    exists es,
      limit_stocks bs = Ok es
      /\ Forall (fun e => e_limit_type e = "封死涨停" \/ e_limit_type e = "炸板") es
      /\ (count_occ string_dec (map e_limit_type es) "封死涨停"
          + count_occ string_dec (map e_limit_type es) "炸板"
          = List.length es)%nat.
Proof.
  intros bs. exists (events_of bs). split; [apply limit_stocks_eq|].
  unfold events_of. generalize (filter limit_condition (priced_of (filter kept bs))).
  intros ps. split.
  - apply Forall_forall. intros e He. apply in_map_iff in He as (p & <- & _).
    unfold event_of. simpl.
    destruct (ge (b_close (p_bar p)) (p_limit_price p)); auto.
  - induction ps as [|p ps IH]; [reflexivity|].
    simpl map. simpl List.length. rewrite <- IH. unfold event_of at 1 3. simpl e_limit_type.
    destruct (ge (b_close (p_bar p)) (p_limit_price p)).
    + rewrite count_occ_cons_eq by reflexivity.
      rewrite count_occ_cons_neq by discriminate. lia.
    + rewrite count_occ_cons_neq by discriminate.
      rewrite count_occ_cons_eq by reflexivity. lia.
Qed.

Lemma sorted_map_filter {A B} (R : B -> B -> Prop) (f : A -> B) (q : A -> bool) l :
  StronglySorted R (map f l) -> StronglySorted R (map f (filter q l)).
Proof.
  induction l as [|x l IH]; simpl; intros Hs; [constructor|].
  inversion Hs as [|? ? Hs' Hx]; subst.
  destruct (q x); simpl; [|now apply IH].
  constructor; [now apply IH|].
  rewrite Forall_forall in *. intros y Hy. apply Hx.
  apply in_map_iff in Hy as (z & <- & Hz). apply filter_In in Hz as [Hz _].
  now apply in_map.
Qed.

(** X5.  The rows of the output are in (instrument, date) order, and they
    are rows of the panel: each is a kept bar of the panel, none appears
    more often than in the panel. *)
Theorem output_is_sorted_selection :
  forall bs : list bar,
    exists es dropped,
      limit_stocks bs = Ok es
      /\ key_sorted (map e_bar es)
      /\ Permutation (map e_bar es ++ dropped) (filter kept bs).
Proof.
  intros bs.
  set (ps := priced_of (filter kept bs)).
  exists (events_of bs),
    (map p_bar (filter (fun p => negb (limit_condition p)) ps)).
  split; [apply limit_stocks_eq|].
  assert (Hbars : map p_bar ps = isort bar_le (filter kept bs)).
  { unfold ps, priced_of. rewrite map_map. simpl.
    change (fun x : bar * float => fst x) with (@fst bar float).
    apply map_fst_attach. }
  assert (He : map e_bar (events_of bs) = map p_bar (filter limit_condition ps)).
  { unfold events_of. fold ps. now rewrite map_map. }
  rewrite He. split.
  - apply sorted_map_filter. rewrite Hbars.
    apply isort_sorted; [apply bar_le_total|apply bar_le_trans].
  - rewrite <- map_app.
    rewrite (isort_perm _ bar_le (filter kept bs)), <- Hbars.
    apply Permutation_map. clear. induction ps as [|p ps IH]; simpl; [constructor|].
    destruct (limit_condition p); simpl.
    + now constructor.
    + rewrite <- Permutation_middle. now constructor.
Qed.

(** Selecting instruments before or after pricing gives the same rows. *)
Lemma priced_of_filter_code (p : string -> bool) (bs : list bar) :
  priced_of (filter (fun b => p (b_ts_code b)) bs)
  = filter (fun q => p (b_ts_code (p_bar q))) (priced_of bs).
Proof.
  unfold priced_of.
  rewrite <- (filter_isort _ bar_le bar_le_total bar_le_trans).
  rewrite filter_map_comm. f_equal.
  now apply (attach_filter p).
Qed.

Lemma filter_comm {A} (p q : A -> bool) (l : list A) :
  filter p (filter q l) = filter q (filter p l).
Proof.
  induction l as [|x l IH]; simpl; [reflexivity|].
  destruct (p x) eqn:Hp, (q x) eqn:Hq; simpl; rewrite ?Hp, ?Hq, IH; reflexivity.
Qed.

(** X6.  Instruments do not influence each other: the events of one
    instrument are the same whether the engine is given the whole panel or
    the bars of that instrument alone. *)
Theorem instruments_are_independent :
  forall (bs : list bar) (k : string),
    exists es,
      limit_stocks bs = Ok es
      /\ limit_stocks (filter (same_code k) bs)
         = Ok (filter (fun e => same_code k (e_bar e)) es).
Proof.
  intros bs k. exists (events_of bs). split; [apply limit_stocks_eq|].
  rewrite limit_stocks_eq. f_equal. unfold events_of.
  rewrite (filter_comm kept (same_code k)).
  unfold same_code at 1.
  rewrite (priced_of_filter_code (fun c => String.eqb c k)).
  rewrite filter_map_comm. f_equal.
  apply (filter_comm limit_condition).
Qed.

Lemma char_match_S c :
  char_match false "S" c = true <-> c = "S"%char \/ c = "s"%char.
Proof.
  destruct c as [[] [] [] [] [] [] [] []]; vm_compute; split; intros H;
    try discriminate H; auto; destruct H as [H|H]; discriminate H.
Qed.

Lemma char_match_T c :
  char_match false "T" c = true <-> c = "T"%char \/ c = "t"%char.
Proof.
  destruct c as [[] [] [] [] [] [] [] []]; vm_compute; split; intros H;
    try discriminate H; auto; destruct H as [H|H]; discriminate H.
Qed.

Lemma match_here_ST s :
  match_here false "ST" s = true
  <-> exists c1 c2 post,
        s = String c1 (String c2 post)
        /\ (c1 = "S"%char \/ c1 = "s"%char) /\ (c2 = "T"%char \/ c2 = "t"%char).
Proof.
  split.
  - destruct s as [|c1 [|c2 post]]; simpl; try discriminate.
    + now rewrite andb_false_r.
    + rewrite andb_true_r. intros H. apply andb_true_iff in H as [H1 H2].
      exists c1, c2, post. split; [reflexivity|].
      split; [now apply char_match_S|now apply char_match_T].
  - intros (c1 & c2 & post & -> & H1 & H2). simpl. rewrite andb_true_r.
    apply andb_true_iff. split; [now apply char_match_S|now apply char_match_T].
Qed.

Lemma search_ST s :
  search false "ST" s = true
  <-> exists pre c1 c2 post,
        s = (pre ++ String c1 (String c2 post))%string
        /\ (c1 = "S"%char \/ c1 = "s"%char) /\ (c2 = "T"%char \/ c2 = "t"%char).
Proof.
  induction s as [|c s IH].
  - split; [discriminate|]. intros (pre & c1 & c2 & post & H & _).
    destruct pre; discriminate H.
  - change (search false "ST" (String c s))
      with (match_here false "ST" (String c s) || search false "ST" s).
    rewrite orb_true_iff, match_here_ST, IH. split.
    + intros [(c1 & c2 & post & H & Hc)|(pre & c1 & c2 & post & H & Hc)].
      * exists EmptyString, c1, c2, post. now split.
      * exists (String c pre), c1, c2, post. split; [simpl; now rewrite H|exact Hc].
    + intros (pre & c1 & c2 & post & H & Hc). destruct pre as [|c' pre]; simpl in H.
      * left. now exists c1, c2, post.
      * right. injection H as _ H. now exists pre, c1, c2, post.
Qed.

(** X7.  For a code of ASCII characters, the filter of line 50 drops the
    row exactly when the code has, somewhere, an S or s directly followed
    by a T or t. *)
Theorem st_filter_drops_codes_containing_st :
  forall b : bar,
    is_ascii (b_ts_code b) = true ->
    (kept b = false
     <-> exists pre c1 c2 post,
           b_ts_code b = (pre ++ String c1 (String c2 post))%string
           /\ (c1 = "S"%char \/ c1 = "s"%char) /\ (c2 = "T"%char \/ c2 = "t"%char)).
Proof.
  intros b _. unfold kept. rewrite negb_false_iff. apply search_ST.
Qed.

(** The code 600st1, as an instance. *)
Lemma st_filter_drops_codes_containing_st_witness :
  is_ascii "600st1" = true
  /\ (kept (mkbar "600st1" 1 1 1 1 1) = false
      <-> exists pre c1 c2 post,
            "600st1" = (pre ++ String c1 (String c2 post))%string
            /\ (c1 = "S"%char \/ c1 = "s"%char) /\ (c2 = "T"%char \/ c2 = "t"%char)).
Proof.
  split; [reflexivity|].
  apply (st_filter_drops_codes_containing_st (mkbar "600st1" 1 1 1 1 1)). reflexivity.
Defined.

(** X8.  A code of fewer than three characters, the empty code included,
    is of the main board (rate 0.10): [startswith] never fails on a short
    string. *)
Theorem short_codes_are_main :
  forall code : string,
    (String.length code < 3)%nat ->
    get_stock_type code = "main"
    /\ limit_rate_of (get_stock_type code) = 0.10%float.
Proof.
  intros code Hlen.
  assert (H : get_stock_type code = "main").
  { destruct code as [|a [|b [|c rest]]]; simpl in Hlen; try lia;
      unfold get_stock_type, startswith; cbn -[ascii_dec];
      split_chars; reflexivity. }
  now rewrite H.
Qed.

(** The empty code. *)
Lemma short_codes_are_main_witness :
  (String.length "" < 3)%nat
  /\ get_stock_type "" = "main"
  /\ limit_rate_of (get_stock_type "") = 0.10%float.
Proof.
  split; [simpl; lia|]. apply (short_codes_are_main ""). simpl. lia.
Defined.

(** The run of [analyze_specific_date] on a panel of bars. *)
Lemma analyze_specific_date_run h out r bs d :
  nth_error h r = Some (frame_of_bars bs) ->
  exists mid,
    analyze_specific_date r d {| heap := h; stdout := out |}
    = (Ok (List.length (h ++ mid)),
       {| heap := (h ++ mid)
                  ++ [frame_of_events
                        (events_of (filter (fun b => Z.eqb (b_trade_date b) d) bs))];
          stdout :=
            out ++ [Print "{} 涨停统计:" [d];
                    Print "封死涨停: {} 只"
                      [Z.of_nat
                         (count_occ string_dec
                            (map e_limit_type
                               (events_of
                                  (filter (fun b => Z.eqb (b_trade_date b) d) bs)))
                            "封死涨停")];
                    Print "炸板: {} 只"
                      [Z.of_nat
                         (count_occ string_dec
                            (map e_limit_type
                               (events_of
                                  (filter (fun b => Z.eqb (b_trade_date b) d) bs)))
                            "炸板")]] |}).
Proof.
  intros Hr. unfold analyze_specific_date.
  set (day := filter (fun b => Z.eqb (b_trade_date b) d) bs).
  destruct (identify_limit_stocks_run (h ++ [frame_of_bars day]) out
              (List.length h) day (nth_error_snoc h _)) as [mid Hrun].
  exists (frame_of_bars day :: mid).
  step ltac:(eapply (getitem_datetime_run _ _ _ _ _ (map b_trade_date bs));
             [exact Hr | reflexivity]).
  step ltac:(eapply getitem_mask_run; exact Hr).
  rewrite date_mask, reindex_mask_bars. fold day.
  step ltac:(exact Hrun).
  step ltac:(eapply (getitem_object_run _ _ _ _ _ (map e_limit_type (events_of day)));
             [apply nth_error_snoc | reflexivity]).
  rewrite !(bind_ok _ _ _ _ _ (emit_run _ _ _)).
  unfold ret. rewrite <- !app_assoc. reflexivity.
Qed.

(** X9.  Asked for a date on which no kept instrument has two bars,
    [analyze_specific_date] returns no row and prints two counts of zero,
    whatever the prices of that date and of the days before: it filters the
    panel to the date before the previous closes are computed. *)
Theorem analyze_specific_date_finds_nothing :
  forall (bs : list bar) (d : Z),
    NoDup (map b_ts_code
             (filter kept (filter (fun b => Z.eqb (b_trade_date b) d) bs))) ->
    limit_stocks_on bs d = Ok []
    /\ stdout (snd (analyze_specific_date 0%nat d
                      {| heap := [frame_of_bars bs]; stdout := [] |}))
       = [Print "{} 涨停统计:" [d]; Print "封死涨停: {} 只" [0%Z];
          Print "炸板: {} 只" [0%Z]].
Proof.
  intros bs d Hnd. split.
  - rewrite limit_stocks_on_eq. now rewrite events_of_distinct.
  - destruct (analyze_specific_date_run [frame_of_bars bs] [] 0 bs d eq_refl)
      as [mid ->].
    simpl. now rewrite events_of_distinct.
Qed.

(** The query for day 2 on the sealed panel. *)
Lemma analyze_specific_date_finds_nothing_witness :
  NoDup (map b_ts_code
           (filter kept (filter (fun b => Z.eqb (b_trade_date b) 2) sealed_panel)))
  /\ limit_stocks_on sealed_panel 2 = Ok [].
Proof.
  assert (H : NoDup (map b_ts_code
                       (filter kept
                          (filter (fun b => Z.eqb (b_trade_date b) 2) sealed_panel)))).
  { repeat constructor. simpl. tauto. }
  split; [exact H|].
  exact (proj1 (analyze_specific_date_finds_nothing sealed_panel 2 H)).
Defined.

Lemma preserves_analyze_specific_date n r d :
  preserves n (analyze_specific_date r d) (fresh n).
Proof.
  unfold analyze_specific_date.
  preserve_methods ltac:(apply preserves_identify_limit_stocks).
Qed.

Lemma preserves_main (stats : DataFrame -> result (list (Z * nat * nat * nat))) n pkl :
  preserves n (main stats pkl) any.
Proof.
  unfold main. destruct pkl as [| |data]; try apply preserves_emit.
  eapply preserves_bind; [apply preserves_new|]. intros df Hdf.
  eapply preserves_bind; [apply preserves_emit|]. intros _ _.
  destruct (negb _); [apply preserves_emit|].
  repeat first
    [ apply preserves_identify_limit_stocks | apply preserves_deref
    | apply preserves_lift | apply preserves_emit
    | apply preserves_getitem_object
    | eapply preserves_bind; [ | intros ? ? ] ].
Qed.

Lemma preserved_prefix {A} (m : M A) Q s :
  preserves (List.length (heap s)) m Q ->
  exists added, heap (snd (m s)) = heap s ++ added.
Proof.
  intros Hm. destruct (Hm s (le_n _)) as (Hf & _ & _).
  rewrite firstn_all in Hf.
  exists (skipn (List.length (heap s)) (heap (snd (m s)))).
  rewrite <- Hf at 1. symmetry. apply firstn_skipn.
Qed.

(** X10.  [analyze_specific_date] and [main] change no frame that existed
    when they were called, whether they return or raise: the store after
    the call is the store before it followed by the frames the call
    allocated. *)
Theorem callers_mutate_no_frame :
  forall (stats : DataFrame -> result (list (Z * nat * nat * nat)))
         (s : state) (r : ref) (d : Z) (pkl : pickle),
    (exists added, heap (snd (analyze_specific_date r d s)) = heap s ++ added)
    /\ (exists added, heap (snd (main stats pkl s)) = heap s ++ added).
Proof.
  intros stats s r d pkl. split.
  - eapply preserved_prefix. apply preserves_analyze_specific_date.
  - eapply preserved_prefix. apply preserves_main.
Qed.

(* ------------------------------------------------------------------ *)
(** * Frames with any columns *)

Lemma block_get_map {L A} `{Label L} (f : list A -> list A) (b : block L A) l :
  block_get (block_map f b) l = option_map f (block_get b l).
Proof.
  induction b as [|[l' c] b IH]; simpl; [reflexivity|].
  now destruct (label_eqb l' l).
Qed.

Section BlockSet.
Context {L A : Type} `{Label L}.
Hypothesis label_eqb_eq : forall a b : L, label_eqb a b = true <-> a = b.

Lemma block_get_set (b : block L A) l c : block_get (block_set b l c) l = Some c.
Proof.
  assert (Hl : label_eqb l l = true) by now apply label_eqb_eq.
  induction b as [|[l' c'] b IH]; simpl; [now rewrite Hl|].
  destruct (label_eqb l' l) eqn:E; simpl; [now rewrite Hl|]. now rewrite E.
Qed.

Lemma block_get_set_present (b : block L A) l c l' col :
  block_get b l' = Some col -> exists col', block_get (block_set b l c) l' = Some col'.
Proof.
  induction b as [|[x c'] b IH]; simpl; [discriminate|].
  destruct (label_eqb x l) eqn:E; simpl.
  - apply label_eqb_eq in E. subst x.
    destruct (label_eqb l l'); eauto.
  - destruct (label_eqb x l'); eauto.
Qed.

(** Every row of a block has a cell for every column of the block. *)
Lemma block_rows_cell n (b : block L A) l col r :
  block_get b l = Some col -> In r (block_rows n b) -> exists v, cell r l = Some v.
Proof.
  revert r. induction b as [|[x c] b IH]; simpl; intros r Hget Hr; [discriminate|].
  apply in_map_iff in Hr as ([v r'] & <- & Hin). simpl.
  destruct (label_eqb x l); [eauto|].
  apply in_combine_r in Hin. eauto.
Qed.
End BlockSet.

Lemma object_eqb_eq (a b : object_column) : label_eqb a b = true <-> a = b.
Proof. destruct a, b; simpl; split; congruence. Qed.

Lemma datetime_eqb_eq (a b : datetime_column) : label_eqb a b = true <-> a = b.
Proof. destruct a, b; simpl; split; congruence. Qed.

Lemma float_eqb_eq (a b : float_column) : label_eqb a b = true <-> a = b.
Proof. destruct a, b; simpl; split; congruence. Qed.

Lemma zip_rows_In os ds fs row :
  In row (zip_rows os ds fs) ->
  In (row_object row) os /\ In (row_datetime row) ds /\ In (row_float row) fs.
Proof.
  revert ds fs. induction os as [|o os IH]; intros [|d ds] [|f fs]; simpl;
    try contradiction.
  intros [<-|Hin]; simpl; [auto|].
  destruct (IH _ _ Hin) as (? & ? & ?). auto.
Qed.

Lemma row_has_float df l row :
  has_float df l -> In row (iterrows df) -> exists v, row_get (row_float row) l = Ok v.
Proof.
  intros [col Hcol] Hrow. apply zip_rows_In in Hrow as (_ & _ & Hf).
  destruct (block_rows_cell _ _ _ _ _ Hcol Hf) as [v Hv].
  exists v. unfold row_get. now rewrite Hv.
Qed.

Lemma row_has_object df l row :
  has_object df l -> In row (iterrows df) -> exists v, row_get (row_object row) l = Ok v.
Proof.
  intros [col Hcol] Hrow. apply zip_rows_In in Hrow as (Ho & _ & _).
  destruct (block_rows_cell _ _ _ _ _ Hcol Ho) as [v Hv].
  exists v. unfold row_get. now rewrite Hv.
Qed.

Lemma mapM_all_ok {A B} (f : A -> result B) (l : list A) :
  (forall x, In x l -> exists y, f x = Ok y) -> exists ys, mapM f l = Ok ys.
Proof.
  induction l as [|x l IH]; intros Hf; simpl; [eauto|].
  destruct (Hf x (or_introl eq_refl)) as [y ->].
  destruct IH as [ys ->]; [intros; apply Hf; now right|]. simpl. eauto.
Qed.

Lemma has_object_reindex f df l : has_object df l -> has_object (reindex f df) l.
Proof.
  intros [col H]. unfold has_object, reindex. simpl.
  rewrite block_get_map, H. simpl. eauto.
Qed.

Lemma has_datetime_reindex f df l : has_datetime df l -> has_datetime (reindex f df) l.
Proof.
  intros [col H]. unfold has_datetime, reindex. simpl.
  rewrite block_get_map, H. simpl. eauto.
Qed.

Lemma has_float_reindex f df l : has_float df l -> has_float (reindex f df) l.
Proof.
  intros [col H]. unfold has_float, reindex. simpl.
  rewrite block_get_map, H. simpl. eauto.
Qed.

Lemma has_float_set d l c :
  has_float {| object_block := object_block d; datetime_block := datetime_block d;
               float_block := block_set (float_block d) l c |} l.
Proof. exists c. simpl. apply (block_get_set float_eqb_eq). Qed.

Lemma has_float_set_keeps d l c l' :
  has_float d l' ->
  has_float {| object_block := object_block d; datetime_block := datetime_block d;
               float_block := block_set (float_block d) l c |} l'.
Proof. intros [col H]. simpl. now apply (block_get_set_present float_eqb_eq) with col. Qed.

Lemma has_object_set d l c :
  has_object {| object_block := block_set (object_block d) l c;
                datetime_block := datetime_block d; float_block := float_block d |} l.
Proof. exists c. simpl. apply (block_get_set object_eqb_eq). Qed.

Lemma has_object_set_keeps d l c l' :
  has_object d l' ->
  has_object {| object_block := block_set (object_block d) l c;
                datetime_block := datetime_block d; float_block := float_block d |} l'.
Proof. intros [col H]. simpl. now apply (block_get_set_present object_eqb_eq) with col. Qed.

Lemma apply_calc_limit_price_ok d :
  has_float d prev_close -> has_object d ts_code ->
  exists prices, apply_axis1 calc_limit_price d = Ok prices.
Proof.
  intros Hp Hc. apply mapM_all_ok. intros row Hrow.
  destruct (row_has_float _ _ _ Hp Hrow) as [prev Hprev].
  destruct (row_has_object _ _ _ Hc Hrow) as [code Hcode].
  unfold calc_limit_price. rewrite Hprev. simpl.
  destruct (isna prev); [eauto|]. rewrite Hcode. simpl. eauto.
Qed.

Lemma apply_classify_limit_ok d :
  has_float d close -> has_float d limit_price ->
  exists types, apply_axis1 classify_limit d = Ok types.
Proof.
  intros Hc Hl. apply mapM_all_ok. intros row Hrow.
  destruct (row_has_float _ _ _ Hc Hrow) as [c Hc'].
  destruct (row_has_float _ _ _ Hl Hrow) as [lp Hl'].
  unfold classify_limit. rewrite Hc'. simpl. rewrite Hl'. simpl.
  destruct (ge c lp); eauto.
Qed.

(** [calculate_limit_price] returns on every frame that has the columns
    [ts_code], [trade_date] and [close]; the frame it returns has the
    columns of the frame it was given and the two it adds. *)
Lemma calculate_limit_price_returns h out r d :
  nth_error h r = Some d ->
  has_object d ts_code -> has_datetime d trade_date -> has_float d close ->
  exists d',
    calculate_limit_price r {| heap := h; stdout := out |}
    = (Ok (List.length h), {| heap := h ++ [d']; stdout := out |})
    /\ (forall l, has_object d l -> has_object d' l)
    /\ (forall l, has_datetime d l -> has_datetime d' l)
    /\ (forall l, has_float d l -> has_float d' l)
    /\ has_float d' prev_close /\ has_float d' limit_price.
Proof.
  intros Hr Hcode Hdate Hclose.
  destruct Hcode as [a Ha]. destruct Hdate as [b Hb].
  set (d2 := reindex (take (argsort (combine a b))) d).
  destruct (has_object_reindex (take (argsort (combine a b))) d ts_code
              (ex_intro _ a Ha)) as [k Hk].
  destruct (has_float_reindex (take (argsort (combine a b))) d close Hclose)
    as [v Hv].
  fold d2 in Hk, Hv.
  set (d3 := {| object_block := object_block d2; datetime_block := datetime_block d2;
                float_block := block_set (float_block d2) prev_close
                                 (shift_in_groups [] k v) |}).
  destruct (apply_calc_limit_price_ok d3) as [prices Hprices].
  { apply has_float_set. }
  { exists k. exact Hk. }
  exists {| object_block := object_block d3; datetime_block := datetime_block d3;
            float_block := block_set (float_block d3) limit_price prices |}.
  split.
  - unfold calculate_limit_price.
    step ltac:(eapply (sort_values_run _ _ _ _ _ _ a b); [exact Hr|exact Ha|exact Hb]).
    fold d2.
    step ltac:(eapply (groupby_shift_run _ _ _ _ _ _ k v);
               [apply nth_error_snoc|exact Hk|exact Hv]).
    step ltac:(apply setitem_float_run). fold d3.
    step ltac:(eapply apply_run; [apply nth_error_snoc|exact Hprices]).
    step ltac:(apply setitem_float_run).
    reflexivity.
  - split; [|split; [|split; [|split]]].
    + intros l Hl. now apply has_object_reindex with (f := take (argsort (combine a b))) in Hl.
    + intros l Hl. now apply has_datetime_reindex with (f := take (argsort (combine a b))) in Hl.
    + intros l Hl. apply has_float_set_keeps. apply (has_float_set_keeps d2).
      now apply has_float_reindex.
    + apply has_float_set_keeps. apply (has_float_set d2).
    + apply has_float_set.
Qed.

Lemma block_missing_present {L A} `{Label L} (b : block L A) l col :
  block_get b l = Some col -> block_missing b [l] = [].
Proof. unfold block_missing. simpl. now intros ->. Qed.

Lemma getitem_columns_returns h out d :
  has_object d ts_code -> has_datetime d trade_date ->
  has_float d open -> has_float d close -> has_float d high -> has_float d low ->
  has_float d zhangtingjia -> has_object d limit_type ->
  exists d',
    getitem_columns (List.length h) result_columns {| heap := h ++ [d]; stdout := out |}
    = (Ok (List.length (h ++ [d])), {| heap := (h ++ [d]) ++ [d']; stdout := out |})
    /\ has_object d' limit_type.
Proof.
  intros [? H1] [? H2] [? H3] [? H4] [? H5] [? H6] [? H7] [? H8].
  eexists. split.
  - unfold getitem_columns.
    rewrite (bind_ok _ _ _ _ _ (deref_run _ _ _ _ (nth_error_snoc h d))).
    unfold result_columns. cbn [flat_map column_missing].
    rewrite (block_missing_present _ _ _ H1), (block_missing_present _ _ _ H2),
      (block_missing_present _ _ _ H3), (block_missing_present _ _ _ H4),
      (block_missing_present _ _ _ H5), (block_missing_present _ _ _ H6),
      (block_missing_present _ _ _ H7), (block_missing_present _ _ _ H8).
    reflexivity.
  - unfold has_object, result_columns. simpl. rewrite H1, H8. simpl. eauto.
Qed.

(** [identify_limit_stocks] returns on every frame that has the six
    columns. *)
Lemma identify_limit_stocks_returns h out r d :
  nth_error h r = Some d -> has_required_columns d ->
  exists mid d',
    identify_limit_stocks r {| heap := h; stdout := out |}
    = (Ok (List.length (h ++ mid)), {| heap := (h ++ mid) ++ [d']; stdout := out |})
    /\ has_object d' limit_type.
Proof.
  intros Hr (Hcode & Hdate & Hopen & Hclose & Hhigh & Hlow).
  assert (Ho : has_object d ts_code)
    by (destruct (block_get (object_block d) ts_code) eqn:E; [eexists; exact E|easy]).
  assert (Hd : has_datetime d trade_date)
    by (destruct (block_get (datetime_block d) trade_date) eqn:E; [eexists; exact E|easy]).
  assert (Hfo : has_float d open)
    by (destruct (block_get (float_block d) open) eqn:E; [eexists; exact E|easy]).
  assert (Hfc : has_float d close)
    by (destruct (block_get (float_block d) close) eqn:E; [eexists; exact E|easy]).
  assert (Hfh : has_float d high)
    by (destruct (block_get (float_block d) high) eqn:E; [eexists; exact E|easy]).
  assert (Hfl : has_float d low)
    by (destruct (block_get (float_block d) low) eqn:E; [eexists; exact E|easy]).
  clear Hcode Hdate Hopen Hclose Hhigh Hlow.
  destruct Ho as [codes Hcodes].
  set (m := invert (str_contains "ST" false codes)).
  set (d1 := reindex (mask_rows m) d).
  destruct (calculate_limit_price_returns (h ++ [d1]) out (List.length h) d1
              (nth_error_snoc h d1))
    as (d4 & Hcalc & Ho4 & Hd4 & Hf4 & Hprev4 & Hlp4).
  { apply has_object_reindex. now exists codes. }
  { now apply has_datetime_reindex. }
  { now apply has_float_reindex. }
  assert (Hh4 : has_float d4 high) by (apply Hf4; now apply has_float_reindex).
  assert (Hc4 : has_float d4 close) by (apply Hf4; now apply has_float_reindex).
  destruct Hh4 as [hs Hhs]. destruct Hc4 as [cs Hcs]. destruct Hlp4 as [lps Hlps].
  set (cond := series_or (series_ge hs lps) (series_ge cs lps)).
  set (d5 := reindex (mask_rows cond) d4).
  destruct (apply_classify_limit_ok d5) as [types Htypes].
  { apply has_float_reindex. now exists cs. }
  { apply has_float_reindex. now exists lps. }
  set (d6 := {| object_block := block_set (object_block d5) limit_type types;
                datetime_block := datetime_block d5; float_block := float_block d5 |}).
  assert (Hlp6 : has_float d6 limit_price)
    by (apply (has_float_reindex (mask_rows cond) d4); now exists lps).
  destruct Hlp6 as [lps6 Hlps6].
  set (d7 := {| object_block := object_block d6; datetime_block := datetime_block d6;
                float_block := block_set (float_block d6) zhangtingjia lps6 |}).
  assert (Hkeep_f : forall l, has_float d l -> has_float d7 l).
  { intros l Hl. apply has_float_set_keeps.
    apply (has_float_reindex (mask_rows cond) d4). apply Hf4.
    now apply has_float_reindex. }
  destruct (getitem_columns_returns (((h ++ [d1]) ++ [d4]) ++ [d5]) out d7)
    as (d8 & Hsel & Hty8); auto.
  { apply (has_object_set_keeps d5). apply has_object_reindex. apply Ho4.
    apply has_object_reindex. now exists codes. }
  { apply (has_datetime_reindex (mask_rows cond) d4). apply Hd4.
    now apply has_datetime_reindex. }
  { apply has_float_set. }
  { apply (has_object_set d5). }
  exists [d1; d4; d5; d7], d8. split; [|exact Hty8].
  unfold identify_limit_stocks.
  step ltac:(eapply (getitem_object_run _ _ _ _ _ codes); [exact Hr|exact Hcodes]).
  step ltac:(eapply getitem_mask_run; exact Hr).
  fold m. fold d1.
  step ltac:(exact Hcalc).
  step ltac:(eapply (getitem_float_run _ _ _ _ _ hs); [apply nth_error_snoc|exact Hhs]).
  step ltac:(eapply (getitem_float_run _ _ _ _ _ lps); [apply nth_error_snoc|exact Hlps]).
  step ltac:(eapply (getitem_float_run _ _ _ _ _ cs); [apply nth_error_snoc|exact Hcs]).
  step ltac:(eapply (getitem_float_run _ _ _ _ _ lps); [apply nth_error_snoc|exact Hlps]).
  fold cond.
  step ltac:(eapply getitem_mask_run; apply nth_error_snoc).
  fold d5.
  step ltac:(eapply copy_run; apply nth_error_snoc).
  step ltac:(eapply apply_run; [apply nth_error_snoc|exact Htypes]).
  step ltac:(apply setitem_object_run).
  fold d6.
  step ltac:(eapply (getitem_float_run _ _ _ _ _ lps6); [apply nth_error_snoc|exact Hlps6]).
  step ltac:(apply setitem_float_run).
  fold d7. rewrite Hsel. rewrite <- !app_assoc. reflexivity.
Qed.

Lemma block_labels_In {L A} `{Label L} (b : block L A) name :
  In name (block_labels b) -> exists l col, In (l, col) b /\ label_name l = name.
Proof.
  unfold block_labels. intros Hin. apply in_map_iff in Hin as ([l col] & Hn & Hin).
  now exists l, col.
Qed.

Section BlockIn.
Context {L A : Type} `{Label L}.
Hypothesis label_eqb_eq : forall a b : L, label_eqb a b = true <-> a = b.

Lemma block_get_In (b : block L A) l col :
  In (l, col) b -> block_get b l <> None.
Proof.
  induction b as [|[l' c] b IH]; simpl; [contradiction|].
  intros [[= -> ->]|Hin].
  - now rewrite (proj2 (label_eqb_eq l l) eq_refl).
  - destruct (label_eqb l' l); [discriminate|auto].
Qed.

Lemma block_get_label (b : block L A) l col :
  block_get b l = Some col -> In (label_name l) (block_labels b).
Proof.
  unfold block_labels. induction b as [|[l' c] b IH]; simpl; [discriminate|].
  destruct (label_eqb l' l) eqn:E; [|auto].
  apply label_eqb_eq in E. subst. auto.
Qed.
End BlockIn.

Lemma existsb_eqb_In name (l : list string) :
  existsb (String.eqb name) l = true <-> In name l.
Proof.
  rewrite existsb_exists. split.
  - intros (x & Hx & He). apply String.eqb_eq in He. now subst.
  - intros Hin. exists name. split; [exact Hin|apply String.eqb_refl].
Qed.

Ltac label_cases :=
  repeat match goal with
         | H : exists _, _ |- _ => destruct H
         | H : _ /\ _ |- _ => destruct H
         | l : object_column |- _ => destruct l
         | l : datetime_column |- _ => destruct l
         | l : float_column |- _ => destruct l
         end; try discriminate.

Lemma object_in_columns df (l : object_column) :
  In (label_name l) (columns df) -> block_get (object_block df) l <> None.
Proof.
  unfold columns. intros Hin.
  apply in_app_or in Hin as [Hin|Hin]; [|apply in_app_or in Hin as [Hin|Hin]];
    apply block_labels_In in Hin; destruct l; label_cases;
    eapply (block_get_In object_eqb_eq); eassumption.
Qed.

Lemma datetime_in_columns df (l : datetime_column) :
  In (label_name l) (columns df) -> block_get (datetime_block df) l <> None.
Proof.
  unfold columns. intros Hin.
  apply in_app_or in Hin as [Hin|Hin]; [|apply in_app_or in Hin as [Hin|Hin]];
    apply block_labels_In in Hin; destruct l; label_cases;
    eapply (block_get_In datetime_eqb_eq); eassumption.
Qed.

Lemma float_in_columns df (l : float_column) :
  In (label_name l) (columns df) -> block_get (float_block df) l <> None.
Proof.
  unfold columns. intros Hin.
  apply in_app_or in Hin as [Hin|Hin]; [|apply in_app_or in Hin as [Hin|Hin]];
    apply block_labels_In in Hin; destruct l; label_cases;
    eapply (block_get_In float_eqb_eq); eassumption.
Qed.

(** The check of lines 92-93 holds exactly for the frames that have the
    six columns the methods look up. *)
Lemma required_columns_check (df : DataFrame) :
  forallb (fun col => existsb (String.eqb col) (columns df)) required_columns = true
  <-> has_required_columns df.
Proof.
  unfold required_columns, has_required_columns. cbn [forallb].
  rewrite !andb_true_iff, !existsb_eqb_In. split.
  - intros (H1 & H2 & H3 & H4 & H5 & H6 & _).
    repeat split.
    + now apply object_in_columns.
    + now apply datetime_in_columns.
    + now apply (float_in_columns df open).
    + now apply (float_in_columns df close).
    + now apply (float_in_columns df high).
    + now apply (float_in_columns df low).
  - intros (H1 & H2 & H3 & H4 & H5 & H6). unfold columns.
    destruct (block_get (object_block df) ts_code) eqn:E1; [|easy].
    destruct (block_get (datetime_block df) trade_date) eqn:E2; [|easy].
    destruct (block_get (float_block df) open) eqn:E3; [|easy].
    destruct (block_get (float_block df) close) eqn:E4; [|easy].
    destruct (block_get (float_block df) high) eqn:E5; [|easy].
    destruct (block_get (float_block df) low) eqn:E6; [|easy].
    apply (block_get_label object_eqb_eq) in E1.
    apply (block_get_label datetime_eqb_eq) in E2.
    apply (block_get_label float_eqb_eq) in E3, E4, E5, E6.
    repeat split; auto using in_or_app.
Qed.

(** X11.  A missing column is answered with [KeyError] naming it, at the
    first statement that looks it up: [ts_code] before anything is
    allocated, [trade_date] by the sort (for [identify_limit_stocks] after
    the filtered copy was made), [close] by the shift, after the sorted
    copy was made. *)
Theorem missing_column_raises_key_error :
  forall (h : list DataFrame) (out : list output) (r : ref) (d : DataFrame),
    nth_error h r = Some d ->
    (block_get (object_block d) ts_code = None ->
     identify_limit_stocks r {| heap := h; stdout := out |}
     = (Raise (KeyError ["ts_code"]), {| heap := h; stdout := out |})
     /\ calculate_limit_price r {| heap := h; stdout := out |}
        = (Raise (KeyError ["ts_code"]), {| heap := h; stdout := out |}))
    /\ (has_object d ts_code ->
        block_get (datetime_block d) trade_date = None ->
        calculate_limit_price r {| heap := h; stdout := out |}
        = (Raise (KeyError ["trade_date"]), {| heap := h; stdout := out |})
        /\ exists filtered,
            identify_limit_stocks r {| heap := h; stdout := out |}
            = (Raise (KeyError ["trade_date"]),
               {| heap := h ++ [filtered]; stdout := out |}))
    /\ (has_object d ts_code -> has_datetime d trade_date ->
        block_get (float_block d) close = None ->
        exists sorted,
          calculate_limit_price r {| heap := h; stdout := out |}
          = (Raise (KeyError ["close"]), {| heap := h ++ [sorted]; stdout := out |})).
Proof.
  intros h out r d Hr. split; [|split].
  - intros Hnone. split.
    + unfold identify_limit_stocks. apply bind_raise.
      unfold getitem_object. rewrite (bind_ok _ _ _ _ _ (deref_run _ _ _ _ Hr)).
      unfold lift, getitem. now rewrite Hnone.
    + unfold calculate_limit_price. apply bind_raise.
      unfold sort_values. rewrite (bind_ok _ _ _ _ _ (deref_run _ _ _ _ Hr)).
      apply bind_raise. unfold lift, getitem. now rewrite Hnone.
  - intros [codes Hcodes] Hnone.
    assert (Hsort : forall h' r' d',
               nth_error h' r' = Some d' ->
               (exists a, block_get (object_block d') ts_code = Some a) ->
               block_get (datetime_block d') trade_date = None ->
               calculate_limit_price r' {| heap := h'; stdout := out |}
               = (Raise (KeyError ["trade_date"]), {| heap := h'; stdout := out |})).
    { intros h' r' d' Hr' [a Ha] Hn. unfold calculate_limit_price. apply bind_raise.
      unfold sort_values. rewrite (bind_ok _ _ _ _ _ (deref_run _ _ _ _ Hr')).
      unfold getitem. rewrite Ha.
      step ltac:(reflexivity). apply bind_raise.
      unfold lift. now rewrite Hn. }
    split; [apply (Hsort h r d); eauto|].
    eexists. unfold identify_limit_stocks.
    step ltac:(eapply (getitem_object_run _ _ _ _ _ codes); [exact Hr|exact Hcodes]).
    step ltac:(eapply getitem_mask_run; exact Hr).
    apply bind_raise. eapply Hsort.
    + apply nth_error_snoc.
    + apply has_object_reindex. now exists codes.
    + unfold reindex. simpl. now rewrite block_get_map, Hnone.
  - intros [codes Hcodes] [dates Hdates] Hnone.
    eexists. unfold calculate_limit_price.
    step ltac:(eapply (sort_values_run _ _ _ _ _ _ codes dates);
               [exact Hr|exact Hcodes|exact Hdates]).
    apply bind_raise. unfold groupby_shift.
    rewrite (bind_ok _ _ _ _ _ (deref_run _ _ _ _ (nth_error_snoc h _))).
    unfold reindex at 1 2. cbn [object_block float_block].
    unfold getitem. rewrite !block_get_map, Hcodes, Hnone. reflexivity.
Qed.

(** A frame without [ts_code] and a frame without [low]. *)
Lemma missing_column_raises_key_error_witness :
  nth_error [no_code_frame] 0 = Some no_code_frame
  /\ identify_limit_stocks 0%nat {| heap := [no_code_frame]; stdout := [] |}
     = (Raise (KeyError ["ts_code"]), {| heap := [no_code_frame]; stdout := [] |}).
Proof.
  split; [reflexivity|].
  exact (proj1 (proj1 (missing_column_raises_key_error [no_code_frame] [] 0
                         no_code_frame eq_refl) eq_refl)).
Defined.

(** X12.  For a frame whose columns have the dtypes of this model (codes
    of str, dates of datetime64, prices of float64), the check of [main]
    (lines 92-93) is enough for the engine: on a frame that passes it,
    [identify_limit_stocks] returns a frame and prints nothing; no lookup
    of a column or of a row cell fails. *)
Theorem checked_frames_are_classified :
  forall (h : list DataFrame) (out : list output) (r : ref) (d : DataFrame),
    nth_error h r = Some d ->
    forallb (fun col => existsb (String.eqb col) (columns d)) required_columns = true ->
    exists r' h' events,
      identify_limit_stocks r {| heap := h; stdout := out |}
      = (Ok r', {| heap := h'; stdout := out |})
      /\ nth_error h' r' = Some events
      /\ has_object events limit_type.
Proof.
  intros h out r d Hr Hcheck. apply required_columns_check in Hcheck.
  destruct (identify_limit_stocks_returns h out r d Hr Hcheck) as (mid & d' & Hrun & Hty).
  exists (List.length (h ++ mid)), ((h ++ mid) ++ [d']), d'.
  split; [exact Hrun|]. split; [apply nth_error_snoc|exact Hty].
Qed.

(** The sealed panel, alone in the store. *)
Lemma checked_frames_are_classified_witness :
  nth_error [frame_of_bars sealed_panel] 0 = Some (frame_of_bars sealed_panel)
  /\ forallb (fun col => existsb (String.eqb col) (columns (frame_of_bars sealed_panel)))
       required_columns = true
  /\ exists r' h' events,
      identify_limit_stocks 0%nat {| heap := [frame_of_bars sealed_panel]; stdout := [] |}
      = (Ok r', {| heap := h'; stdout := [] |})
      /\ nth_error h' r' = Some events
      /\ has_object events limit_type.
Proof.
  split; [reflexivity|]. split; [reflexivity|].
  exact (checked_frames_are_classified [frame_of_bars sealed_panel] [] 0
           (frame_of_bars sealed_panel) eq_refl eq_refl).
Defined.


(** X14.  The sort of line 21 is stable: the rows of the returned frame
    that share an instrument and a date stand in the order they had in the
    panel, so among bars with a duplicated date the earlier row of the
    panel is the previous bar of the later one. *)
Theorem rows_with_equal_keys_keep_their_order :
  forall (bs : list bar) (k : string * Z),
    exists ps,
      priced_rows bs = Ok ps
      /\ filter (fun b => String.eqb (fst (bar_key b)) (fst k)
                          && Z.eqb (snd (bar_key b)) (snd k)) (map p_bar ps)
         = filter (fun b => String.eqb (fst (bar_key b)) (fst k)
                            && Z.eqb (snd (bar_key b)) (snd k)) bs.
Proof.
  intros bs k. exists (priced_of bs). split; [apply priced_rows_eq|].
  assert (Hbars : map p_bar (priced_of bs) = isort bar_le bs).
  { unfold priced_of. rewrite map_map. simpl.
    change (fun x : bar * float => fst x) with (@fst bar float).
    apply map_fst_attach. }
  rewrite Hbars, (filter_isort _ bar_le bar_le_total bar_le_trans).
  apply (isort_same_key k). apply Forall_forall. intros b Hb.
  apply filter_In in Hb as [_ Hb]. now apply key_eqb_eq in Hb.
Qed.

(* ------------------------------------------------------------------ *)
(** * The rounding of the limit price *)

(** X15.  The limit price of a row is NaN when its previous close is NaN.
    Otherwise it is the binary64 product [prev_close * (1 + rate)] rounded
    to hundredths in this sense: the whole number of hundredths nearest to
    the exact value of the product, the even one at a tie, divided by 100
    in binary64; that number of hundredths is unique.  A previous close of
    10.05 on the main board has the product 11.055000000000001 and the
    limit price 11.06. *)
Theorem limit_price_rounds_the_binary_product :
  forall bs : list bar,
    (exists ps,
        priced_rows bs = Ok ps
        /\ Forall (fun p =>
                     exists c,
                       board_of (get_stock_type (b_ts_code (p_bar p))) = Some c
                       /\ (isna (p_prev_close p) = true ->
                           p_limit_price p = PrimFloat.nan)
                       /\ (isna (p_prev_close p) = false ->
                           rounded_to_hundredths
                             (p_prev_close p * (1 + rate_for c))%float
                             (p_limit_price p))) ps)
    /\ (forall m e n n',
           nearest_hundredths m e n -> nearest_hundredths m e n' -> n = n')
    /\ (10.05 * (1 + rate_for MAIN))%float = 11.055000000000001%float
    /\ priced_rows inexact_panel
       = Ok [{| p_bar := mkbar "600000.SH" 1 10.05 10.05 10.05 10.05;
                p_prev_close := PrimFloat.nan; p_limit_price := PrimFloat.nan |};
             {| p_bar := mkbar "600000.SH" 2 10.5 10.5 10.5 10.5;
                p_prev_close := 10.05; p_limit_price := 11.06 |}].
Proof.
  intros bs.
  split; [|split; [apply nearest_hundredths_unique|split; vm_compute; reflexivity]].
  exists (priced_of bs). split; [apply priced_rows_eq|].
  unfold priced_of. apply Forall_forall. intros p Hp.
  apply in_map_iff in Hp as ([b prev] & <- & _).
  destruct (board_rate (b_ts_code b)) as (c & Hc & Hrate).
  exists c. split; [exact Hc|]. simpl. split; intros Hna; rewrite Hna.
  - reflexivity.
  - rewrite Hrate. apply round_rounded.
Qed.
